(** * The link inline tool of editor.js

    A shallow embedding of [src/components/inline-tools/inline-tool-link.ts]
    (class [LinkInlineTool]) and the properties of its link validation,
    link normalisation and editing session.

    Layout: JavaScript strings and regular expressions; the validator and the
    normaliser; the page (document, selection) and the [SelectionUtils]
    collaborator; the controller; then the theorems. *)

From Stdlib Require Import Ascii String.
From Stdlib Require Import List NArith Bool Arith Lia.
Import ListNotations.

Set Implicit Arguments.

(* ================================================================== *)
(** ** JavaScript strings *)
(* ================================================================== *)

Module JS.

(** A JavaScript string is a sequence of UTF-16 code units. A code unit is
    kept as an [N]; nothing below depends on the 16-bit bound. *)
Definition char : Type := N.
Definition str : Type := list char.

Definition code (a : ascii) : char := N_of_ascii a.
Arguments code a%_char.

(** The string literal ['...'] of the source, for ASCII literals. *)
Definition js (s : string) : str := map code (list_ascii_of_string s).
Arguments js s%_string.

Definition between (lo hi c : char) : bool := ((lo <=? c) && (c <=? hi))%N.

(** ECMAScript [WhiteSpace]: TAB, VT, FF, SP, NBSP, ZWNBSP and the Unicode
    space separators. *)
Definition isWhiteSpace (c : char) : bool :=
  ((c =? 9) || (c =? 11) || (c =? 12) || (c =? 32) || (c =? 160)
   || (c =? 5760) || between 8192 8202 c || (c =? 8239) || (c =? 8287)
   || (c =? 12288) || (c =? 65279))%N.

(** ECMAScript [LineTerminator]: LF, CR, LS, PS. *)
Definition isLineTerminator (c : char) : bool :=
  ((c =? 10) || (c =? 13) || (c =? 8232) || (c =? 8233))%N.

(** The class [\s]. *)
Definition isSpace (c : char) : bool := isWhiteSpace c || isLineTerminator c.

(** The class [\w]: [A-Za-z0-9_]. *)
Definition isWord (c : char) : bool :=
  (between 48 57 c || between 65 90 c || between 97 122 c || (c =? 95))%N.

(** The class [.] (no [s] flag): anything but a line terminator. *)
Definition isDot (c : char) : bool := negb (isLineTerminator c).

Fixpoint dropWhile (p : char -> bool) (s : str) : str :=
  match s with
  | [] => []
  | c :: s' => if p c then dropWhile p s' else s
  end.

Definition trimStart (s : str) : str := dropWhile isSpace s.
Definition trimEnd (s : str) : str := rev (dropWhile isSpace (rev s)).

(** [String.prototype.trim]: strips white space and line terminators from
    both ends. *)
Definition trim (s : str) : str := trimEnd (trimStart s).

(** Truthiness of a string: the empty string is falsy. *)
Definition truthy (s : str) : bool :=
  match s with [] => false | _ :: _ => true end.

(** [s.substring(0, n)]. *)
Definition substring0 (n : nat) (s : str) : str := firstn n s.

Definition eqb (s t : str) : bool :=
  if list_eq_dec N.eq_dec s t then true else false.

(* ------------------------------------------------------------------ *)
(** *** Regular expressions *)

(** The fragment of the RegExp syntax the tool uses, over classes of code
    units. *)
Inductive regex : Type :=
| Never
| Eps
| Class (p : char -> bool)
| Seq (r1 r2 : regex)
| Alt (r1 r2 : regex)
| Star (r : regex).

Definition Lit (c : char) : regex := Class (N.eqb c).
Definition Plus (r : regex) : regex := Seq r (Star r).
Definition Opt (r : regex) : regex := Alt r Eps.

(** The strings a regular expression denotes. *)
Inductive Matches : regex -> str -> Prop :=
| MEps : Matches Eps []
| MClass p c : p c = true -> Matches (Class p) [c]
| MSeq r1 r2 s1 s2 :
    Matches r1 s1 -> Matches r2 s2 -> Matches (Seq r1 r2) (s1 ++ s2)
| MAltL r1 r2 s : Matches r1 s -> Matches (Alt r1 r2) s
| MAltR r1 r2 s : Matches r2 s -> Matches (Alt r1 r2) s
| MStar0 r : Matches (Star r) []
| MStarS r s1 s2 :
    Matches r s1 -> Matches (Star r) s2 -> Matches (Star r) (s1 ++ s2).

Fixpoint nullable (r : regex) : bool :=
  match r with
  | Never => false
  | Eps => true
  | Class _ => false
  | Seq r1 r2 => nullable r1 && nullable r2
  | Alt r1 r2 => nullable r1 || nullable r2
  | Star _ => true
  end.

(** The derivative of [r] by the code unit [c]. *)
Fixpoint deriv (c : char) (r : regex) : regex :=
  match r with
  | Never => Never
  | Eps => Never
  | Class p => if p c then Eps else Never
  | Seq r1 r2 =>
      if nullable r1
      then Alt (Seq (deriv c r1) r2) (deriv c r2)
      else Seq (deriv c r1) r2
  | Alt r1 r2 => Alt (deriv c r1) (deriv c r2)
  | Star r1 => Seq (deriv c r1) (Star r1)
  end.

(** [r] matches the whole of [s]. *)
Fixpoint matchesAll (r : regex) (s : str) : bool :=
  match s with
  | [] => nullable r
  | c :: s' => matchesAll (deriv c r) s'
  end.

(** [r] matches some prefix of [s]. *)
Fixpoint matchesPrefix (r : regex) (s : str) : bool :=
  nullable r ||
  match s with
  | [] => false
  | c :: s' => matchesPrefix (deriv c r) s'
  end.

(** A RegExp literal: a body with its [^] and [$] assertions (no flags). *)
Record RegExp : Type := mkRegExp {
  fromStart : bool;
  body : regex;
  toEnd : bool
}.

Definition matchesAt (re : RegExp) (s : str) : bool :=
  if toEnd re then matchesAll (body re) s else matchesPrefix (body re) s.

Fixpoint matchesSomewhere (re : RegExp) (s : str) : bool :=
  matchesAt re s ||
  match s with
  | [] => false
  | _ :: s' => matchesSomewhere re s'
  end.

(** [RegExp.prototype.test]. *)
Definition test (re : RegExp) (s : str) : bool :=
  if fromStart re then matchesAt re s else matchesSomewhere re s.

End JS.

Import JS.

(* ================================================================== *)
(** ** Validation and normalisation of a link *)
(* ================================================================== *)

Definition slash : char := code "/".
Definition colon : char := code ":".
Definition hash : char := code "#".
Definition lbracket : char := code "[".
Definition rbracket : char := code "]".

(** [/\s/] *)
Definition re_space : RegExp := mkRegExp false (Class isSpace) false.

(** [/^(\w+):(\/\/)?/] *)
Definition re_protocol : RegExp :=
  mkRegExp true
    (Seq (Plus (Class isWord)) (Seq (Lit colon) (Opt (Seq (Lit slash) (Lit slash)))))
    false.

(** The class [[^/\s]]. *)
Definition notSlashNorSpace (c : char) : bool :=
  negb ((c =? slash)%N || isSpace c).

(** [/^\/[^/\s]/] *)
Definition re_internal : RegExp :=
  mkRegExp true (Seq (Lit slash) (Class notSlashNorSpace)) false.

(** [/^\/\/[^/\s]/] *)
Definition re_protocolRelative : RegExp :=
  mkRegExp true (Seq (Lit slash) (Seq (Lit slash) (Class notSlashNorSpace))) false.

(** [/^\[.+\]$/] *)
Definition re_escaped : RegExp :=
  mkRegExp true (Seq (Lit lbracket) (Seq (Plus (Class isDot)) (Lit rbracket))) true.

(** [validateURL]: no spaces allowed. *)
Definition validateURL (s : str) : bool := negb (test re_space s).

(** [addProtocol]. *)
Definition addProtocol (link : str) : str :=
  if test re_protocol link then link
  else
    let isInternal := test re_internal link in
    let isInternalRoot :=
      (length link =? 1) &&
      match nth_error link 0 with Some c => (c =? slash)%N | None => false end in
    let isAnchor := JS.eqb (substring0 1 link) [hash] in
    let isProtocolRelative := test re_protocolRelative link in
    let isEscapedUrl := test re_escaped link in
    if negb isInternal && negb isInternalRoot && negb isAnchor
       && negb isProtocolRelative && negb isEscapedUrl
    then js "http://" ++ link
    else link.

(** [prepareLink]. *)
Definition prepareLink (link : str) : str :=
  let link := trim link in
  let link := addProtocol link in
  link.


(* ================================================================== *)
(** ** The page: document, selection, collaborators *)
(* ================================================================== *)

(** An inline node of the edited block: a text node, or an anchor element
    [<a>] with its [href] and [title] attributes (absent: [None]) and its
    text. *)
Inductive Node : Type :=
| Text (data : str)
| Anchor (href title : option str) (data : str).

Definition textOf (n : Node) : str :=
  match n with Text s => s | Anchor _ _ s => s end.

Definition tagName (n : Node) : option string :=
  match n with Text _ => None | Anchor _ _ _ => Some "A"%string end.

Definition Document : Type := list Node.

(** An element is named by its position in the document. *)
Definition Element : Type := nat.

(** The text a reader sees. *)
Definition textContent (d : Document) : str := concat (map textOf d).

(** A range: two boundary points, each a node and an offset in its text. *)
Record Range : Type := mkRange {
  startNode : nat;
  startOffset : nat;
  endNode : nat;
  endOffset : nat
}.

(** The state of one [SelectionUtils] instance. *)
Record SelectionUtils : Type := mkSelectionUtils {
  savedSelectionRange : option Range;
  isFakeBackgroundEnabled : bool
}.

(** What the tool does to its collaborators, in the order it does it. *)
Inductive Event : Type :=
| SetFakeBackground
| RemoveFakeBackground
| Save (captured : option Range)
| Restore (applied : option Range)
| ClearSaved
| ExpandToTag (element : Element)
| CollapseToEnd
| ExecCommand (command : string) (value : option str)
| Focus
| ToolbarClose
| InlineToolbarClose
| NotifierShow (message style : string)
| Log (message type : string) (arg : str)
| PreventDefault
| StopPropagation
| StopImmediatePropagation.

Definition ClassList : Type := list string.

Definition classList_add (c : string) (l : ClassList) : ClassList :=
  if existsb (String.eqb c) l then l else l ++ [c].

Definition classList_remove (c : string) (l : ClassList) : ClassList :=
  filter (fun x => negb (String.eqb c x)) l.

(** The tool after [render] and [renderActions], on its page. *)
Record World : Type := mkWorld {
  document : Document;
  windowSelection : option Range;     (* the active selection, if any *)
  selection : SelectionUtils;         (* this.selection *)
  inputOpened : bool;                 (* this.inputOpened *)
  buttonClassList : ClassList;        (* this.nodes.button.classList *)
  rootClassList : ClassList;          (* this.nodes.inputs.root.classList *)
  linkClassList : ClassList;          (* this.nodes.inputs.link.classList *)
  titleClassList : ClassList;         (* this.nodes.inputs.title.classList *)
  linkValue : str;                    (* this.nodes.inputs.link.value *)
  titleValue : str;                   (* this.nodes.inputs.title.value *)
  trace : list Event
}.

Definition set_document (d : Document) (w : World) : World :=
  mkWorld d (windowSelection w) (selection w) (inputOpened w)
    (buttonClassList w) (rootClassList w) (linkClassList w) (titleClassList w)
    (linkValue w) (titleValue w) (trace w).

Definition set_windowSelection (r : option Range) (w : World) : World :=
  mkWorld (document w) r (selection w) (inputOpened w)
    (buttonClassList w) (rootClassList w) (linkClassList w) (titleClassList w)
    (linkValue w) (titleValue w) (trace w).

Definition set_selection (su : SelectionUtils) (w : World) : World :=
  mkWorld (document w) (windowSelection w) su (inputOpened w)
    (buttonClassList w) (rootClassList w) (linkClassList w) (titleClassList w)
    (linkValue w) (titleValue w) (trace w).

Definition set_inputOpened (b : bool) (w : World) : World :=
  mkWorld (document w) (windowSelection w) (selection w) b
    (buttonClassList w) (rootClassList w) (linkClassList w) (titleClassList w)
    (linkValue w) (titleValue w) (trace w).

Definition upd_buttonClassList (f : ClassList -> ClassList) (w : World) : World :=
  mkWorld (document w) (windowSelection w) (selection w) (inputOpened w)
    (f (buttonClassList w)) (rootClassList w) (linkClassList w) (titleClassList w)
    (linkValue w) (titleValue w) (trace w).

Definition upd_rootClassList (f : ClassList -> ClassList) (w : World) : World :=
  mkWorld (document w) (windowSelection w) (selection w) (inputOpened w)
    (buttonClassList w) (f (rootClassList w)) (linkClassList w) (titleClassList w)
    (linkValue w) (titleValue w) (trace w).

Definition upd_linkClassList (f : ClassList -> ClassList) (w : World) : World :=
  mkWorld (document w) (windowSelection w) (selection w) (inputOpened w)
    (buttonClassList w) (rootClassList w) (f (linkClassList w)) (titleClassList w)
    (linkValue w) (titleValue w) (trace w).

Definition upd_titleClassList (f : ClassList -> ClassList) (w : World) : World :=
  mkWorld (document w) (windowSelection w) (selection w) (inputOpened w)
    (buttonClassList w) (rootClassList w) (linkClassList w) (f (titleClassList w))
    (linkValue w) (titleValue w) (trace w).

Definition set_linkValue (v : str) (w : World) : World :=
  mkWorld (document w) (windowSelection w) (selection w) (inputOpened w)
    (buttonClassList w) (rootClassList w) (linkClassList w) (titleClassList w)
    v (titleValue w) (trace w).

Definition set_titleValue (v : str) (w : World) : World :=
  mkWorld (document w) (windowSelection w) (selection w) (inputOpened w)
    (buttonClassList w) (rootClassList w) (linkClassList w) (titleClassList w)
    (linkValue w) v (trace w).

Definition record (e : Event) (w : World) : World :=
  mkWorld (document w) (windowSelection w) (selection w) (inputOpened w)
    (buttonClassList w) (rootClassList w) (linkClassList w) (titleClassList w)
    (linkValue w) (titleValue w) (trace w ++ [e]).

(* ------------------------------------------------------------------ *)
(** *** Methods as state transformers that may throw *)

Inductive Error : Type := TypeError.

Inductive Result (A : Type) : Type :=
| Ok (a : A) (w : World)
| Throw (e : Error) (w : World).

Arguments Throw {A} e w.

Definition M (A : Type) : Type := World -> Result A.

Definition ret {A} (a : A) : M A := fun w => Ok a w.

Definition bind {A B} (m : M A) (k : A -> M B) : M B :=
  fun w => match m w with
           | Ok a w' => k a w'
           | Throw e w' => Throw e w'
           end.

Definition throw {A} (e : Error) : M A := fun w => Throw e w.
Definition gets {A} (f : World -> A) : M A := fun w => Ok (f w) w.
Definition modify (f : World -> World) : M unit := fun w => Ok tt (f w).
Definition emit (e : Event) : M unit := modify (record e).

Declare Scope tool_scope.
Delimit Scope tool_scope with tool.
Notation "x <- m ;; k" := (bind m (fun x => k))
  (at level 61, m at next level, right associativity) : tool_scope.
Notation "m ;; k" := (bind m (fun _ => k))
  (at level 61, right associativity) : tool_scope.
Local Open Scope tool_scope.

(** The world a call leaves behind, whether it returned or threw. *)
Definition worldOf {A} (r : Result A) : World :=
  match r with Ok _ w => w | Throw _ w => w end.

(* ------------------------------------------------------------------ *)
(** *** The document's editing commands *)

Definition replaceAt (e : Element) (n : Node) (d : Document) : Document :=
  match nth_error d e with
  | Some _ => firstn e d ++ [n] ++ skipn (S e) d
  | None => d
  end.

(** The range lies in the document, start before end. *)
Definition inDocument (d : Document) (r : Range) : bool :=
  match nth_error d (startNode r), nth_error d (endNode r) with
  | Some ns, Some ne =>
      (startOffset r <=? length (textOf ns)) &&
      (endOffset r <=? length (textOf ne)) &&
      ((startNode r <? endNode r) ||
       ((startNode r =? endNode r) && (startOffset r <=? endOffset r)))
  | _, _ => false
  end.

(** The text a range selects. *)
Definition selectedText (d : Document) (r : Range) : str :=
  match nth_error d (startNode r), nth_error d (endNode r) with
  | Some ns, Some ne =>
      if startNode r =? endNode r
      then firstn (endOffset r - startOffset r) (skipn (startOffset r) (textOf ns))
      else skipn (startOffset r) (textOf ns)
           ++ textContent (firstn (endNode r - S (startNode r)) (skipn (S (startNode r)) d))
           ++ firstn (endOffset r) (textOf ne)
  | _, _ => []
  end.

(** What is left of a node cut by a range boundary; nothing when no text
    is left. *)
Definition remainder (n : Node) (s : str) : list Node :=
  match s with
  | [] => []
  | _ :: _ => [match n with Text _ => Text s | Anchor h t _ => Anchor h t s end]
  end.

(** Modelled from the spec: the effect of the browser's
    [document.execCommand('createLink', false, value)], which is not code of
    the repository. Section 4.3: the selected text is wrapped by a single
    annotation element carrying [href = value], replacing the previous
    content; the new element's contents become the selection. A range that
    is not in the document leaves it unchanged. *)
Definition createLink (value : str) (r : Range) (d : Document) : Document * Range :=
  match nth_error d (startNode r), nth_error d (endNode r) with
  | Some ns, Some ne =>
      if inDocument d r then
        let before := firstn (startNode r) d ++ remainder ns (firstn (startOffset r) (textOf ns)) in
        let after := remainder ne (skipn (endOffset r) (textOf ne)) ++ skipn (S (endNode r)) d in
        let inner := selectedText d r in
        (before ++ [Anchor (Some value) None inner] ++ after,
         mkRange (length before) 0 (length before) (length inner))
      else (d, r)
  | _, _ => (d, r)
  end.

(** The nearest enclosing element with the given tag, from the start of the
    range. *)
Definition enclosing (tag : string) (d : Document) (sel : option Range) : option Element :=
  match sel with
  | Some r =>
      match nth_error d (startNode r) with
      | Some n =>
          match tagName n with
          | Some t => if String.eqb t tag then Some (startNode r) else None
          | None => None
          end
      | None => None
      end
  | None => None
  end.

(** Modelled from the spec: the effect of the browser's
    [document.execCommand('unlink')]. Section 4.3, [remove()]: unwraps the
    nearest enclosing annotation around the current selection, leaving its
    text in place; no-op if there is none. *)
Definition removeLink (sel : option Range) (d : Document) : Document :=
  match enclosing "A" d sel with
  | Some e =>
      match nth_error d e with
      | Some n => replaceAt e (Text (textOf n)) d
      | None => d
      end
  | None => d
  end.

Definition execCommand (command : string) (value : option str) : M unit :=
  emit (ExecCommand command value) ;;
  sel <- gets windowSelection ;;
  d <- gets document ;;
  if String.eqb command "createLink" then
    match sel, value with
    | Some r, Some v =>
        let (d', r') := createLink v r d in
        modify (set_document d') ;;
        modify (set_windowSelection (Some r'))
    | _, _ => ret tt
    end
  else if String.eqb command "unlink" then
    modify (set_document (removeLink sel d))
  else ret tt.

(** [element.getAttribute(name)]: [None] is JavaScript's [null]. *)
Definition getAttribute (e : Element) (name : string) : M (option str) :=
  d <- gets document ;;
  ret (match nth_error d e with
       | Some (Anchor h t _) =>
           if String.eqb name "href" then h
           else if String.eqb name "title" then t
           else None
       | _ => None
       end).

(** [element.title = v]: the property reflects the attribute. *)
Definition setTitle (e : Element) (v : str) : M unit :=
  d <- gets document ;;
  match nth_error d e with
  | Some (Anchor h _ s) => modify (set_document (replaceAt e (Anchor h (Some v) s) d))
  | _ => ret tt
  end.

(** [a !== b] for [a] a string or [null] and [b] a string. *)
Definition strictNe (a : option str) (b : str) : bool :=
  match a with
  | Some s => negb (JS.eqb s b)
  | None => true
  end.

(** LF and CR, the two code units the text inputs do not hold. *)
Definition isNewline (c : char) : bool := ((c =? 10) || (c =? 13))%N.

(** The value sanitization of a text input: line feeds and carriage
    returns are stripped. *)
Definition stripNewlines (s : str) : str := filter (fun c => negb (isNewline c)) s.

(** The [value] setter of the inputs made by [renderActions], which are
    text inputs: [null] is taken to the empty string, and a string is
    stored with its line feeds and carriage returns stripped. *)
Definition toValue (v : option str) : str :=
  match v with Some s => stripNewlines s | None => [] end.

(* ------------------------------------------------------------------ *)
(** *** SelectionUtils *)

Module Selection.

(** [new SelectionUtils()] *)
Definition new : SelectionUtils := mkSelectionUtils None false.

(** Modelled from the spec: [SelectionUtils.save] ([components/selection] is
    not under src). Section 4.1: captures the current document selection
    into a snapshot; a silent no-op if there is no active selection. *)
Definition save (su : SelectionUtils) : M SelectionUtils :=
  r <- gets windowSelection ;;
  emit (Save r) ;;
  ret (match r with
       | Some _ => mkSelectionUtils r (isFakeBackgroundEnabled su)
       | None => su
       end).

(** Modelled from the spec: [SelectionUtils.restore]. Section 4.1: re-applies
    the last saved snapshot as the active selection; section 7: a silent
    no-op with no prior snapshot. *)
Definition restore (su : SelectionUtils) : M SelectionUtils :=
  emit (Restore (savedSelectionRange su)) ;;
  match savedSelectionRange su with
  | Some r => modify (set_windowSelection (Some r))
  | None => ret tt
  end ;;
  ret su.

(** Modelled from the spec: [SelectionUtils.setFakeBackground]. Sections 3
    and 4.1: sets the boolean FakeBackgroundState. *)
Definition setFakeBackground (su : SelectionUtils) : M SelectionUtils :=
  emit SetFakeBackground ;;
  ret (mkSelectionUtils (savedSelectionRange su) true).

(** Modelled from the spec: [SelectionUtils.removeFakeBackground]. Sections
    3 and 4.1: clears the boolean FakeBackgroundState. *)
Definition removeFakeBackground (su : SelectionUtils) : M SelectionUtils :=
  emit RemoveFakeBackground ;;
  ret (mkSelectionUtils (savedSelectionRange su) false).

(** Modelled from the spec: [SelectionUtils.clearSaved]. Section 4.1:
    discards the snapshot. *)
Definition clearSaved (su : SelectionUtils) : M SelectionUtils :=
  emit ClearSaved ;;
  ret (mkSelectionUtils None (isFakeBackgroundEnabled su)).

(** Modelled from the spec: [SelectionUtils.findParentTag]. Section 4.1:
    ascends from the current selection's anchor node to the nearest
    enclosing element matching the tag name; null if none is found. *)
Definition findParentTag (tag : string) : M (option Element) :=
  sel <- gets windowSelection ;;
  d <- gets document ;;
  ret (enclosing tag d sel).

(** Modelled from the spec: [SelectionUtils.expandToTag]. Section 4.1:
    replaces the active selection with one spanning the full contents of
    the element. *)
Definition expandToTag (e : Element) : M unit :=
  emit (ExpandToTag e) ;;
  d <- gets document ;;
  match nth_error d e with
  | Some n => modify (set_windowSelection (Some (mkRange e 0 e (length (textOf n)))))
  | None => ret tt
  end.

(** Modelled from the spec: [SelectionUtils.collapseToEnd]. Section 4.4:
    collapses the selection to its end. *)
Definition collapseToEnd : M unit :=
  emit CollapseToEnd ;;
  sel <- gets windowSelection ;;
  match sel with
  | Some r =>
      modify (set_windowSelection
                (Some (mkRange (endNode r) (endOffset r) (endNode r) (endOffset r))))
  | None => ret tt
  end.

End Selection.

(** A method call on [this.selection]. *)
Definition this_selection (method : SelectionUtils -> M SelectionUtils) : M unit :=
  su <- gets selection ;;
  su' <- method su ;;
  modify (set_selection su').

(** The host's [toolbar.close()]. *)
Definition toolbar_close : M unit := emit ToolbarClose.

(* ================================================================== *)
(** ** LinkInlineTool *)
(* ================================================================== *)

Definition commandLink : string := "createLink".
Definition commandUnlink : string := "unlink".
Definition ENTER_KEY : N := 13.

Module CSS.
Definition button : string := "ce-inline-tool".
Definition buttonActive : string := "ce-inline-tool--active".
Definition buttonModifier : string := "ce-inline-tool--link".
Definition buttonUnlink : string := "ce-inline-tool--unlink".
Definition input : string := "ce-inline-tool-input".
Definition inputShowed : string := "ce-inline-tool-input--showed".
End CSS.

(** [unlink]: removes the [<a>] tag. *)
Definition unlink : M unit := execCommand commandUnlink None.

(** [insertLink]: inserts the [<a>] tag with its [href], then sets the title
    of the anchor found again around the selection; with no anchor there,
    the property assignment on [null] throws. *)
Definition insertLink (link title : str) : M unit :=
  anchorTag <- Selection.findParentTag "A" ;;
  match anchorTag with
  | Some a => Selection.expandToTag a
  | None => ret tt
  end ;;
  execCommand commandLink (Some link) ;;
  found <- Selection.findParentTag "A" ;;
  match found with
  | Some a => setTitle a title
  | None => throw TypeError
  end.

(** [this.nodes.inputs.link.focus()]: the focus moves into the input and
    the page is left with no active range. The source saves the selection
    "before change focus to the input", and has the range be null on the
    next click on the icon. *)
Definition focus : M unit :=
  emit Focus ;;
  modify (set_windowSelection None).

(** [openActions(needFocus = false)] *)
Definition openActions (needFocus : bool) : M unit :=
  modify (upd_rootClassList (classList_add CSS.inputShowed)) ;;
  modify (upd_linkClassList (classList_add CSS.inputShowed)) ;;
  (if needFocus then focus else ret tt) ;;
  modify (upd_titleClassList (classList_add CSS.inputShowed)) ;;
  modify (set_inputOpened true).

(** [closeActions(clearSavedSelection = true)] *)
Definition closeActions (clearSavedSelection : bool) : M unit :=
  fake <- gets (fun w => isFakeBackgroundEnabled (selection w)) ;;
  (if fake then
     currentSelection <- Selection.save Selection.new ;;
     this_selection Selection.restore ;;
     this_selection Selection.removeFakeBackground ;;
     _ <- Selection.restore currentSelection ;;
     ret tt
   else ret tt) ;;
  modify (upd_rootClassList (classList_remove CSS.inputShowed)) ;;
  modify (upd_linkClassList (classList_remove CSS.inputShowed)) ;;
  modify (upd_titleClassList (classList_remove CSS.inputShowed)) ;;
  modify (set_linkValue (js "")) ;;
  modify (set_titleValue (js "")) ;;
  (if clearSavedSelection then this_selection Selection.clearSaved else ret tt) ;;
  modify (set_inputOpened false).

(** [toggleActions] *)
Definition toggleActions : M unit :=
  opened <- gets inputOpened ;;
  if negb opened then openActions true else closeActions false.

(** [checkState(selection?)]; the argument is not used. *)
Definition checkState (_ : option Range) : M bool :=
  anchorTag <- Selection.findParentTag "A" ;;
  match anchorTag with
  | Some a =>
      modify (upd_buttonClassList (classList_add CSS.buttonUnlink)) ;;
      modify (upd_buttonClassList (classList_add CSS.buttonActive)) ;;
      openActions false ;;
      hrefAttr <- getAttribute a "href" ;;
      titleAttr <- getAttribute a "title" ;;
      modify (set_linkValue
                (toValue (if strictNe hrefAttr (js "null") then hrefAttr else Some (js "")))) ;;
      modify (set_titleValue
                (toValue (if strictNe titleAttr (js "null") then titleAttr else Some (js "")))) ;;
      this_selection Selection.save
  | None =>
      modify (upd_buttonClassList (classList_remove CSS.buttonUnlink)) ;;
      modify (upd_buttonClassList (classList_remove CSS.buttonActive))
  end ;;
  ret (match anchorTag with Some _ => true | None => false end).

(** [clear]: called with the inline toolbar closing. *)
Definition clear : M unit := closeActions true.

(** Modelled from the spec: the host's [inlineToolbar.close()], not under
    src. Section 6 lists it as a session-end signal and section 4.4 has
    [clear()] driven by the host on toolbar dismissal; the source documents
    [clear] as the function called with the inline toolbar closing. Closing
    the inline toolbar therefore calls the tool's [clear]. *)
Definition inlineToolbar_close : M unit :=
  emit InlineToolbarClose ;;
  clear.

(** [surround(range)]: [range] is [None] on the second click on the icon. *)
Definition surround (range : option Range) : M unit :=
  match range with
  | Some _ =>
      opened <- gets inputOpened ;;
      (if negb opened then
         this_selection Selection.setFakeBackground ;;
         this_selection Selection.save
       else
         this_selection Selection.restore ;;
         this_selection Selection.removeFakeBackground) ;;
      parentAnchor <- Selection.findParentTag "A" ;;
      match parentAnchor with
      | Some a =>
          Selection.expandToTag a ;;
          unlink ;;
          closeActions true ;;
          _ <- checkState None ;;
          toolbar_close
      | None => toggleActions
      end
  | None => toggleActions
  end.

(** [value || ''] *)
Definition orEmpty (s : str) : str := if truthy s then s else js "".

(** [enterPressed(event)] *)
Definition enterPressed : M unit :=
  link <- gets (fun w => orEmpty (linkValue w)) ;;
  title <- gets (fun w => orEmpty (titleValue w)) ;;
  if negb (truthy (trim link)) then
    this_selection Selection.restore ;;
    unlink ;;
    emit PreventDefault ;;
    closeActions true
  else if negb (validateURL link) then
    emit (NotifierShow "Pasted link is not valid." "error") ;;
    emit (Log "Incorrect Link pasted" "warn" link)
  else
    let link := prepareLink link in
    this_selection Selection.restore ;;
    this_selection Selection.removeFakeBackground ;;
    insertLink link title ;;
    emit PreventDefault ;;
    emit StopPropagation ;;
    emit StopImmediatePropagation ;;
    Selection.collapseToEnd ;;
    inlineToolbar_close.

(** The [keydown] listener of both inputs. *)
Definition keydown (keyCode : N) : M unit :=
  if (keyCode =? ENTER_KEY)%N then enterPressed else ret tt.

(** Calls recorded in a trace. *)
Definition isNotification (e : Event) : bool :=
  match e with NotifierShow _ _ => true | _ => false end.

Definition isMutation (e : Event) : bool :=
  match e with ExecCommand _ _ => true | _ => false end.

Definition notifications (t : list Event) : nat := length (filter isNotification t).
Definition mutations (t : list Event) : nat := length (filter isMutation t).

(** The session is closed: the input is not opened and its fields are
    empty. *)
Definition Closed (w : World) : Prop :=
  inputOpened w = false /\ linkValue w = [] /\ titleValue w = [].


(* ------------------------------------------------------------------ *)
(** *** Sample pages *)

Definition samplePage : Document :=
  [Text (js "see ");
   Anchor (Some (js "http://x.com")) (Some (js "X")) (js "text");
   Text (js " here")].

(** A closed tool with the selection inside a link. *)
Definition closedOnLink : World :=
  mkWorld samplePage (Some (mkRange 1 1 1 3)) Selection.new false
    [CSS.button; CSS.buttonModifier] [] [CSS.input] [CSS.input]
    (js "") (js "") [].

(** A title of two lines. *)
Definition titleWithBreak : str := js "line1" ++ [10%N] ++ js "line2".

(** A closed tool with the selection inside a link whose title has two
    lines. *)
Definition closedOnBrokenTitle : World :=
  mkWorld [Anchor (Some (js "http://x.com")) (Some titleWithBreak) (js "text")]
    (Some (mkRange 0 1 0 3)) Selection.new false
    [CSS.button; CSS.buttonModifier] [] [CSS.input] [CSS.input]
    (js "") (js "") [].

(** A world with the input open on the blank link text [" "]. *)
Definition blankCommit : World :=
  mkWorld [Text (js "plain text")] (Some (mkRange 0 0 0 5))
    (mkSelectionUtils (Some (mkRange 0 0 0 5)) true) true
    [CSS.button; CSS.buttonModifier]
    [CSS.inputShowed] [CSS.input; CSS.inputShowed] [CSS.input; CSS.inputShowed]
    (js " ") (js "") [].

(** The input opened on the first word of the page, the user having since
    selected part of the last one. *)
Definition openElsewhere : World :=
  mkWorld samplePage (Some (mkRange 2 1 2 5))
    (mkSelectionUtils (Some (mkRange 0 0 0 3)) true) true
    [CSS.button; CSS.buttonModifier]
    [CSS.inputShowed] [CSS.input; CSS.inputShowed] [CSS.input; CSS.inputShowed]
    (js "vc.ru") (js "") [].

(** The input opened on part of the link of the page, with the given link
    text and title typed in. *)
Definition openOnLink (link title : str) : World :=
  mkWorld samplePage (Some (mkRange 1 1 1 3))
    (mkSelectionUtils (Some (mkRange 1 1 1 3)) false) true
    [CSS.button; CSS.buttonModifier; CSS.buttonUnlink; CSS.buttonActive]
    [CSS.inputShowed] [CSS.input; CSS.inputShowed] [CSS.input; CSS.inputShowed]
    link title [].

(** A commit that is rejected: the call returns, the input state is as it
    was, one more warning has reached the notifier, and the document has
    not been touched. *)
Definition Rejected (w : World) (res : Result unit) : Prop :=
  exists w',
    res = Ok tt w'
    /\ inputOpened w' = inputOpened w
    /\ linkValue w' = linkValue w
    /\ titleValue w' = titleValue w
    /\ notifications (trace w') = S (notifications (trace w))
    /\ mutations (trace w') = mutations (trace w)
    /\ document w' = document w.

(** An activation that opens the editor on the annotation [a]: the call
    returns with the selection captured, the fake background set, the input
    opened and filled from the annotation, and the annotation in place. *)
Definition OpensEditing (w : World) (a : Element) (res : Result unit) : Prop :=
  exists w' h t s,
    res = Ok tt w'
    /\ nth_error (document w) a = Some (Anchor h t s)
    /\ savedSelectionRange (selection w') = windowSelection w
    /\ isFakeBackgroundEnabled (selection w') = true
    /\ inputOpened w' = true
    /\ linkValue w' = toValue h
    /\ titleValue w' = toValue t
    /\ nth_error (document w') a = Some (Anchor h t s).

(** The five internal-reference tests of [addProtocol], together. *)
Definition isInternalReference (t : str) : bool :=
  test re_internal t
  || ((length t =? 1) &&
      match nth_error t 0 with Some c => (c =? slash)%N | None => false end)
  || JS.eqb (substring0 1 t) [hash]
  || test re_protocolRelative t
  || test re_escaped t.

(* ------------------------------------------------------------------ *)
(** *** The tool's elements and its life on the page *)

(** An icon made by [$.svg(name, width, height)]. *)
Record Svg : Type := mkSvg {
  svgName : string;
  svgWidth : nat;
  svgHeight : nat
}.

Record ButtonElement : Type := mkButtonElement {
  buttonType : string;
  buttonClasses : ClassList;
  buttonChildren : list Svg
}.

(** [render]: the button of the inline toolbar. *)
Definition render : ButtonElement :=
  mkButtonElement "button"
    (classList_add CSS.buttonModifier (classList_add CSS.button []))
    [mkSvg "link" 14 10; mkSvg "unlink" 15 11].

Record InputElement : Type := mkInputElement {
  placeholder : string;
  inputClasses : ClassList;
  listAttribute : option string
}.

Record Datalist : Type := mkDatalist {
  datalistId : string;
  datalistOptions : list str
}.

(** The children of the root [div], in the order they are appended. *)
Record Actions : Type := mkActions {
  linkInput : InputElement;
  suggestions : Datalist;
  titleInput : InputElement
}.

(** [this.config]: [linkSuggestions] is optional. *)
Record Config : Type := mkConfig {
  linkSuggestions : option (list str)
}.

(** [renderActions]; [t] is the host's [i18n.t]. An option is made for each
    suggestion when [linkSuggestions?.length > 0]. *)
Definition renderActions (t : string -> string) (config : Config) : Actions :=
  let link :=
    mkInputElement (t "Add a link"%string) (classList_add CSS.input []) (Some "linkSuggestions"%string) in
  let options :=
    match linkSuggestions config with
    | Some l => if 0 <? length l then l else []
    | None => []
    end in
  let datalist := mkDatalist "linkSuggestions" options in
  let title :=
    mkInputElement (t "Add a title"%string) (classList_add CSS.input []) None in
  mkActions link datalist title.

(** The tool as constructed and rendered on a page: a new [SelectionUtils],
    the input not opened, its fields empty. *)
Definition mounted (t : string -> string) (config : Config)
  (d : Document) (sel : option Range) : World :=
  let actions := renderActions t config in
  mkWorld d sel Selection.new false
    (buttonClasses render) []
    (inputClasses (linkInput actions)) (inputClasses (titleInput actions))
    (js "") (js "") [].

(** What happens to the tool: the host's calls, a key pressed in an input,
    and the user selecting text or typing in the inputs. *)
Inductive Action : Type :=
| Surround (range : option Range)
| CheckState (arg : option Range)
| Clear
| Keydown (keyCode : N)
| UserSelects (sel : option Range)
| UserTypes (link title : str).

Definition handle (a : Action) : M unit :=
  match a with
  | Surround range => surround range
  | CheckState arg => _ <- checkState arg ;; ret tt
  | Clear => clear
  | Keydown keyCode => keydown keyCode
  | UserSelects sel => modify (set_windowSelection sel)
  | UserTypes link title => modify (set_linkValue link) ;; modify (set_titleValue title)
  end.

(** The world after an action; a handler that throws leaves the world as it
    was when it threw. *)
Definition after (w : World) (a : Action) : World := worldOf (handle a w).

Definition afterAll (w : World) (l : list Action) : World := fold_left after l w.

Definition shown (l : ClassList) : Prop := In CSS.inputShowed l.

(** The input and its two fields carry the class that shows them exactly
    when the tool holds the input to be opened. *)
Definition ShownIffOpened (w : World) : Prop :=
  if inputOpened w
  then shown (rootClassList w) /\ shown (linkClassList w) /\ shown (titleClassList w)
  else ~ shown (rootClassList w) /\ ~ shown (linkClassList w) /\ ~ shown (titleClassList w).

(** A fake background is there only while the input is opened. *)
Definition FakeBackgroundOnlyWhileOpened (w : World) : Prop :=
  isFakeBackgroundEnabled (selection w) = true -> inputOpened w = true.

(** The events a call added to the trace. *)
Definition added (w w' : World) : list Event := skipn (length (trace w)) (trace w').

(** The selection that [restore] leaves active. *)
Definition restored (w : World) : option Range :=
  match savedSelectionRange (selection w) with
  | Some r => Some r
  | None => windowSelection w
  end.

(** What [checkState] puts in an input for an attribute of the anchor. *)
Definition prefill (attr : option str) : str :=
  toValue (if strictNe attr (js "null") then attr else Some (js "")).

(** An editing command as the tool means to issue them: [unlink] with no
    value, or [createLink] with a link that has no white space, is not
    empty and is left as it is by [addProtocol]. Other events pass. *)
Definition goodCommand (e : Event) : Prop :=
  match e with
  | ExecCommand command value =>
      (command = "unlink"%string /\ value = None)
      \/ (command = "createLink"%string
          /\ exists link, value = Some link
                          /\ validateURL link = true
                          /\ link <> []
                          /\ addProtocol link = link)
  | _ => True
  end.

(** The rendered tool on the sample page, the first word selected. *)
Definition mountedOnText : World :=
  mounted (fun key => key) (mkConfig None) samplePage (Some (mkRange 0 0 0 3)).

(** The input opened with a link typed in and no selection anywhere. *)
Definition openWithoutSelection : World :=
  mkWorld samplePage None Selection.new true
    [CSS.button; CSS.buttonModifier]
    [CSS.inputShowed] [CSS.input; CSS.inputShowed] [CSS.input; CSS.inputShowed]
    (js "vc.ru") (js "") [].

(* ================================================================== *)
(** ** The normaliser as the specification words it *)
(* ================================================================== *)

Module Reference.

(** [t] is [s] with its surrounding white space removed. *)
Definition IsTrimOf (s t : str) : Prop :=
  (exists l r, s = l ++ t ++ r /\ forallb isSpace l = true /\ forallb isSpace r = true)
  /\ (forall c u, t = c :: u -> isSpace c = false)
  /\ (forall c u, t = u ++ [c] -> isSpace c = false).

(** [scheme:] or [scheme://] at the start: a scheme is a non-empty run of
    letters, digits and underscores. *)
Definition HasScheme (t : str) : Prop :=
  exists scheme rest,
    scheme <> [] /\ forallb isWord scheme = true /\
    (t = scheme ++ [colon] ++ rest \/ t = scheme ++ [colon; slash; slash] ++ rest).

(** (1) Internal nested path [/x...]: a slash, then a character [x] that is
    neither a second slash nor white space. *)
Definition NestedPath (t : str) : Prop :=
  exists x rest, t = slash :: x :: rest /\ x <> slash /\ isSpace x = false.

(** (2) Internal root path: [/] exactly. *)
Definition RootPath (t : str) : Prop := t = [slash].

(** (3) In-page anchor: a leading [#]. *)
Definition InPageAnchor (t : str) : Prop := exists rest, t = hash :: rest.

(** (4) Protocol-relative URL [//x...]: two slashes, then a character [x]
    that is neither a slash nor white space. *)
Definition ProtocolRelative (t : str) : Prop :=
  exists x rest, t = slash :: slash :: x :: rest /\ x <> slash /\ isSpace x = false.

(** (5) Bracket-escaped token [[...]] spanning the whole string: some
    content on one line between the two brackets. *)
Definition BracketToken (t : str) : Prop :=
  exists inner,
    inner <> [] /\ forallb isDot inner = true /\
    t = [lbracket] ++ inner ++ [rbracket].

Definition InternalReference (t : str) : Prop :=
  NestedPath t \/ RootPath t \/ InPageAnchor t \/ ProtocolRelative t \/ BracketToken t.

(** [normalize]: trim; a string with a scheme or of an internal-reference
    shape is left unchanged; any other string gets [http://] prepended. *)
Definition Normalizes (s r : str) : Prop :=
  exists t, IsTrimOf s t /\
    ((HasScheme t /\ r = t)
     \/ (~ HasScheme t /\ InternalReference t /\ r = t)
     \/ (~ HasScheme t /\ ~ InternalReference t /\ r = js "http://" ++ t)).

End Reference.

(* ================================================================== *)
(** ** The regular-expression matcher decides the denotation *)
(* ================================================================== *)

Module RegexFacts.

Create HintDb re.
#[local] Hint Constructors Matches : re.

Lemma Matches_Never_inv s : Matches Never s -> False.
Proof. intros H; inversion H. Qed.

Lemma Matches_Eps_inv s : Matches Eps s -> s = [].
Proof. intros H; inversion H; reflexivity. Qed.

Lemma Matches_Class_inv p s :
  Matches (Class p) s -> exists c, s = [c] /\ p c = true.
Proof. intros H; inversion H; subst; eauto. Qed.

Lemma Matches_Seq_inv r1 r2 s :
  Matches (Seq r1 r2) s ->
  exists s1 s2, s = s1 ++ s2 /\ Matches r1 s1 /\ Matches r2 s2.
Proof. intros H; inversion H; subst; eauto. Qed.

Lemma Matches_Alt_inv r1 r2 s :
  Matches (Alt r1 r2) s -> Matches r1 s \/ Matches r2 s.
Proof. intros H; inversion H; subst; auto. Qed.

Lemma nullable_spec (r : regex) : nullable r = true <-> Matches r [].
Proof.
  induction r as [ | | p | r1 IH1 r2 IH2 | r1 IH1 r2 IH2 | r IH]; simpl.
  - split; [discriminate | intros H; inversion H].
  - split; auto with re.
  - split; [discriminate | intros H; inversion H].
  - rewrite andb_true_iff, IH1, IH2. split.
    + intros [H1 H2]. change (@nil char) with (@nil char ++ []). auto with re.
    + intros H. apply Matches_Seq_inv in H as (s1 & s2 & E & H1 & H2).
      symmetry in E. apply app_eq_nil in E as [-> ->]. auto.
  - rewrite orb_true_iff, IH1, IH2. split.
    + intros [H | H]; auto with re.
    + apply Matches_Alt_inv.
  - split; auto with re.
Qed.

(** A non-empty match of a sequence starts in its first part, or its first
    part matches nothing and it starts in its second part. *)
Lemma Matches_Seq_cons r1 r2 c s :
  Matches (Seq r1 r2) (c :: s) ->
  (exists s1 s2, s = s1 ++ s2 /\ Matches r1 (c :: s1) /\ Matches r2 s2)
  \/ (Matches r1 [] /\ Matches r2 (c :: s)).
Proof.
  intros H. apply Matches_Seq_inv in H as (s1 & s2 & E & H1 & H2).
  destruct s1 as [ | c1 s1]; simpl in E.
  - right. subst. auto.
  - left. injection E as -> ->. eauto.
Qed.

(** A non-empty match of a repetition starts with a non-empty match of its
    body. *)
Lemma Matches_Star_cons r c s :
  Matches (Star r) (c :: s) ->
  exists s1 s2, s = s1 ++ s2 /\ Matches r (c :: s1) /\ Matches (Star r) s2.
Proof.
  intros H. remember (Star r) as r' eqn:Er. remember (c :: s) as t eqn:Et.
  revert c s Et.
  induction H as [ | | | | | | r0 s1 s2 H1 _ H2 IH2]; try discriminate.
  injection Er as ->. intros c s Et.
  destruct s1 as [ | c1 s1]; simpl in Et.
  - apply IH2; auto.
  - injection Et as -> <-. eauto.
Qed.

Lemma deriv_spec (r : regex) : forall c s,
  Matches (deriv c r) s <-> Matches r (c :: s).
Proof.
  induction r as [ | | p | r1 IH1 r2 IH2 | r1 IH1 r2 IH2 | r IH]; intros c s; simpl.
  - split; intros H; inversion H.
  - split; intros H; inversion H.
  - destruct (p c) eqn:Ep; split; intros H.
    + apply Matches_Eps_inv in H as ->. auto with re.
    + apply Matches_Class_inv in H as (c' & E & _). injection E as Ec Es; subst.
      auto with re.
    + inversion H.
    + apply Matches_Class_inv in H as (c' & E & Hp). injection E as Ec Es; subst.
      congruence.
  - split.
    + intros H. destruct (nullable r1) eqn:En.
      * apply Matches_Alt_inv in H as [H | H].
        -- apply Matches_Seq_inv in H as (s1 & s2 & -> & H1 & H2).
           apply IH1 in H1. change (c :: s1 ++ s2) with ((c :: s1) ++ s2).
           auto with re.
        -- apply IH2 in H. apply nullable_spec in En.
           change (c :: s) with ([] ++ c :: s). auto with re.
      * apply Matches_Seq_inv in H as (s1 & s2 & -> & H1 & H2).
        apply IH1 in H1. change (c :: s1 ++ s2) with ((c :: s1) ++ s2).
        auto with re.
    + intros H. apply Matches_Seq_cons in H as [(s1 & s2 & -> & H1 & H2) | [H1 H2]].
      * apply IH1 in H1. destruct (nullable r1); auto with re.
      * apply IH2 in H2. apply nullable_spec in H1. rewrite H1. auto with re.
  - split; intros H; apply Matches_Alt_inv in H as [H | H].
    + apply MAltL, IH1; assumption.
    + apply MAltR, IH2; assumption.
    + apply MAltL, IH1; assumption.
    + apply MAltR, IH2; assumption.
  - split.
    + intros H. apply Matches_Seq_inv in H as (s1 & s2 & -> & H1 & H2).
      apply IH in H1. change (c :: s1 ++ s2) with ((c :: s1) ++ s2).
      auto with re.
    + intros H. apply Matches_Star_cons in H as (s1 & s2 & -> & H1 & H2).
      apply IH in H1. auto with re.
Qed.

Lemma matchesAll_spec (s : str) : forall r,
  matchesAll r s = true <-> Matches r s.
Proof.
  induction s as [ | c s IH]; intros r; simpl.
  - apply nullable_spec.
  - rewrite IH. apply deriv_spec.
Qed.

Lemma matchesPrefix_spec (s : str) : forall r,
  matchesPrefix r s = true <-> exists p q, s = p ++ q /\ Matches r p.
Proof.
  induction s as [ | c s IH]; intros r; simpl; rewrite orb_true_iff.
  - split.
    + intros [H | H]; [ | discriminate]. apply nullable_spec in H.
      exists [], []. auto.
    + intros (p & q & E & H). symmetry in E. apply app_eq_nil in E as [-> ->].
      left. apply nullable_spec. assumption.
  - rewrite IH, nullable_spec. split.
    + intros [H | (p & q & -> & H)].
      * exists [], (c :: s). auto.
      * apply deriv_spec in H. exists (c :: p), q. auto.
    + intros (p & q & E & H). destruct p as [ | c' p]; simpl in E.
      * left. assumption.
      * injection E as <- ->. right. exists p, q. split; auto.
        apply deriv_spec. assumption.
Qed.

Lemma matchesPrefix_Never (s : str) : matchesPrefix Never s = false.
Proof. induction s as [ | c s IH]; simpl; auto. Qed.

Lemma matchesPrefix_nullable (r : regex) (s : str) :
  nullable r = true -> matchesPrefix r s = true.
Proof. intros H. destruct s; simpl; rewrite H; reflexivity. Qed.

(** An unanchored search for one code unit of a class. *)
Lemma test_search_class (p : char -> bool) (s : str) :
  test (mkRegExp false (Class p) false) s = existsb p s.
Proof.
  unfold test; simpl.
  induction s as [ | c s IH]; simpl; [reflexivity | ].
  rewrite IH. unfold matchesAt; simpl.
  destruct (p c); simpl.
  - rewrite matchesPrefix_nullable; reflexivity.
  - rewrite matchesPrefix_Never; reflexivity.
Qed.

End RegexFacts.

(* ================================================================== *)
(** ** Trimming *)
(* ================================================================== *)

Section Trim.

Variable p : char -> bool.

Lemma dropWhile_split (s : str) :
  exists l, s = l ++ dropWhile p s /\ forallb p l = true.
Proof.
  induction s as [ | c s (l & E & Hl)]; simpl.
  - exists []. auto.
  - destruct (p c) eqn:Ec.
    + exists (c :: l). simpl. rewrite Ec, Hl. split; [congruence | reflexivity].
    + exists []. auto.
Qed.

Lemma dropWhile_head (s : str) c u : dropWhile p s = c :: u -> p c = false.
Proof.
  induction s as [ | c' s IH]; simpl; [discriminate | ].
  destruct (p c') eqn:Ec; [assumption | ].
  intros E. injection E as <- _. assumption.
Qed.

Lemma dropWhile_app_all (l u : str) :
  forallb p l = true -> dropWhile p (l ++ u) = dropWhile p u.
Proof.
  induction l as [ | c l IH]; simpl; [reflexivity | ].
  intros H. apply andb_true_iff in H as [-> H]. auto.
Qed.

Lemma dropWhile_all (l : str) : forallb p l = true -> dropWhile p l = [].
Proof.
  intros H. rewrite <- (app_nil_r l). rewrite dropWhile_app_all; auto.
Qed.

Lemma dropWhile_clean (s : str) :
  (forall c u, s = c :: u -> p c = false) -> dropWhile p s = s.
Proof.
  destruct s as [ | c s]; simpl; [reflexivity | ].
  intros H. rewrite (H c s eq_refl). reflexivity.
Qed.

End Trim.

Import Reference.

Lemma trim_spec (s : str) : IsTrimOf s (trim s).
Proof.
  unfold trim, trimEnd, trimStart.
  destruct (dropWhile_split isSpace s) as (l & El & Hl).
  set (u := dropWhile isSpace s) in *.
  destruct (dropWhile_split isSpace (rev u)) as (r & Er & Hr).
  set (v := dropWhile isSpace (rev u)) in *.
  assert (Eu : u = rev v ++ rev r).
  { rewrite <- (rev_involutive u), Er, rev_app_distr. reflexivity. }
  split; [ | split].
  - exists l, (rev r). split; [congruence | ]. split; [assumption | ].
    rewrite forallb_forall in *. intros c Hc. apply Hr, in_rev. assumption.
  - intros c t E.
    apply (dropWhile_head isSpace s (u := t ++ rev r)).
    fold u. rewrite Eu, E. reflexivity.
  - intros c t E.
    apply (dropWhile_head isSpace (rev u) (u := rev t)).
    fold v. rewrite <- (rev_involutive v), E, rev_app_distr. reflexivity.
Qed.

Lemma trim_unique (s t : str) : IsTrimOf s t -> trim s = t.
Proof.
  intros ((l & r & -> & Hl & Hr) & Hhead & Hlast).
  unfold trim, trimEnd, trimStart.
  rewrite dropWhile_app_all by assumption.
  destruct t as [ | c t].
  - simpl. rewrite (dropWhile_all _ _ Hr). reflexivity.
  - rewrite (@dropWhile_clean isSpace ((c :: t) ++ r)).
    2:{ intros c' u E. simpl in E. injection E as <- _. eapply Hhead; reflexivity. }
    rewrite rev_app_distr, dropWhile_app_all.
    2:{ rewrite forallb_forall in *. intros x Hx. apply Hr, in_rev. assumption. }
    rewrite dropWhile_clean; [apply rev_involutive | ].
    intros c' u E. apply (Hlast c' (rev u)).
    rewrite <- (rev_involutive (c :: t)), E. reflexivity.
Qed.

(** A string with no white space at either end is its own trim. *)
Lemma trim_clean (t : str) :
  (forall c u, t = c :: u -> isSpace c = false) ->
  (forall c u, t = u ++ [c] -> isSpace c = false) ->
  trim t = t.
Proof.
  intros Hh Hl. apply trim_unique. split; [ | split]; auto.
  exists [], []. rewrite app_nil_r. auto.
Qed.

Lemma trim_idempotent (s : str) : trim (trim s) = trim s.
Proof.
  destruct (trim_spec s) as (_ & Hh & Hl). apply trim_clean; assumption.
Qed.

(* ================================================================== *)
(** ** What each test of [addProtocol] recognises *)
(* ================================================================== *)

Module Shapes.

Import RegexFacts.

Lemma Matches_Lit c s : Matches (Lit c) s <-> s = [c].
Proof.
  unfold Lit. split.
  - intros H. apply Matches_Class_inv in H as (c' & -> & E).
    apply N.eqb_eq in E. congruence.
  - intros ->. constructor. apply N.eqb_refl.
Qed.

Lemma Matches_Class p s : Matches (Class p) s <-> exists c, s = [c] /\ p c = true.
Proof.
  split; [apply Matches_Class_inv | ].
  intros (c & -> & H). constructor; assumption.
Qed.

Lemma Matches_Star_Class p s : Matches (Star (Class p)) s <-> forallb p s = true.
Proof.
  split.
  - intros H. remember (Star (Class p)) as r eqn:Er.
    induction H as [ | | | | | | r0 s1 s2 H1 _ _ IH2]; try discriminate.
    + reflexivity.
    + injection Er as ->. apply Matches_Class_inv in H1 as (c & -> & Hc).
      simpl. rewrite Hc. auto.
  - induction s as [ | c s IH]; simpl; intros H.
    + constructor.
    + apply andb_true_iff in H as [Hc Hs].
      change (c :: s) with ([c] ++ s). constructor; auto. constructor; assumption.
Qed.

Lemma Matches_Plus_Class p s :
  Matches (Plus (Class p)) s <-> s <> [] /\ forallb p s = true.
Proof.
  unfold Plus. split.
  - intros H. apply Matches_Seq_inv in H as (s1 & s2 & -> & H1 & H2).
    apply Matches_Class_inv in H1 as (c & -> & Hc).
    apply Matches_Star_Class in H2. simpl. rewrite Hc, H2.
    split; [discriminate | reflexivity].
  - intros [Hne H]. destruct s as [ | c s]; [congruence | ].
    simpl in H. apply andb_true_iff in H as [Hc Hs].
    change (c :: s) with ([c] ++ s). constructor.
    + constructor; assumption.
    + apply Matches_Star_Class; assumption.
Qed.

Lemma notSlashNorSpace_spec x :
  notSlashNorSpace x = true <-> x <> slash /\ isSpace x = false.
Proof.
  unfold notSlashNorSpace.
  rewrite negb_true_iff, orb_false_iff, N.eqb_neq. reflexivity.
Qed.

Lemma validateURL_spec (s : str) :
  validateURL s = true <-> forall c, In c s -> isSpace c = false.
Proof.
  unfold validateURL, re_space. rewrite test_search_class, negb_true_iff.
  split.
  - intros H c Hc. destruct (isSpace c) eqn:E; [ | reflexivity].
    assert (existsb isSpace s = true) by (apply existsb_exists; eauto).
    congruence.
  - intros H. destruct (existsb isSpace s) eqn:E; [ | reflexivity].
    apply existsb_exists in E as (c & Hc & Ec). rewrite (H c Hc) in Ec. discriminate.
Qed.

Lemma test_protocol (t : str) : test re_protocol t = true <-> HasScheme t.
Proof.
  unfold test, re_protocol, matchesAt; simpl fromStart; simpl toEnd; simpl body.
  cbv iota. rewrite matchesPrefix_spec. split.
  - intros (pfx & q & -> & H).
    apply Matches_Seq_inv in H as (scheme & s2 & -> & Hs & H2).
    apply Matches_Seq_inv in H2 as (s3 & s4 & -> & H3 & _).
    apply Matches_Lit in H3 as ->. apply Matches_Plus_Class in Hs as [Hne Hw].
    exists scheme, (s4 ++ q). split; [assumption | ]. split; [assumption | ].
    left. rewrite <- !app_assoc. reflexivity.
  - intros (scheme & rest & Hne & Hw & E).
    assert (E' : exists rest', t = (scheme ++ [colon] ++ []) ++ rest').
    { destruct E as [-> | ->].
      - exists rest. rewrite <- !app_assoc. reflexivity.
      - exists ([slash; slash] ++ rest). rewrite <- !app_assoc. reflexivity. }
    destruct E' as (rest' & ->).
    exists (scheme ++ [colon] ++ []), rest'. split; [reflexivity | ].
    constructor.
    + apply Matches_Plus_Class. auto.
    + constructor.
      * apply Matches_Lit. reflexivity.
      * apply MAltR. constructor.
Qed.

Lemma test_internal (t : str) : test re_internal t = true <-> NestedPath t.
Proof.
  unfold test, re_internal, matchesAt; simpl fromStart; simpl toEnd; simpl body.
  cbv iota. rewrite matchesPrefix_spec. split.
  - intros (pfx & q & -> & H).
    apply Matches_Seq_inv in H as (s1 & s2 & -> & H1 & H2).
    apply Matches_Lit in H1 as ->.
    apply Matches_Class_inv in H2 as (x & -> & Hx).
    apply notSlashNorSpace_spec in Hx. exists x, q. auto.
  - intros (x & rest & -> & Hx). apply notSlashNorSpace_spec in Hx.
    exists ([slash] ++ [x]), rest. split; [reflexivity | ].
    constructor; [apply Matches_Lit; reflexivity | constructor; assumption].
Qed.

Lemma test_protocolRelative (t : str) :
  test re_protocolRelative t = true <-> ProtocolRelative t.
Proof.
  unfold test, re_protocolRelative, matchesAt; simpl fromStart; simpl toEnd; simpl body.
  cbv iota. rewrite matchesPrefix_spec. split.
  - intros (pfx & q & -> & H).
    apply Matches_Seq_inv in H as (s1 & s2 & -> & H1 & H2).
    apply Matches_Seq_inv in H2 as (s3 & s4 & -> & H3 & H4).
    apply Matches_Lit in H1 as ->. apply Matches_Lit in H3 as ->.
    apply Matches_Class_inv in H4 as (x & -> & Hx).
    apply notSlashNorSpace_spec in Hx. exists x, q. auto.
  - intros (x & rest & -> & Hx). apply notSlashNorSpace_spec in Hx.
    exists ([slash] ++ [slash] ++ [x]), rest. split; [reflexivity | ].
    constructor; [apply Matches_Lit; reflexivity | ].
    constructor; [apply Matches_Lit; reflexivity | constructor; assumption].
Qed.

Lemma test_escaped (t : str) : test re_escaped t = true <-> BracketToken t.
Proof.
  unfold test, re_escaped, matchesAt; simpl fromStart; simpl toEnd; simpl body.
  cbv iota. rewrite matchesAll_spec. split.
  - intros H.
    apply Matches_Seq_inv in H as (s1 & s2 & -> & H1 & H2).
    apply Matches_Seq_inv in H2 as (inner & s4 & -> & H3 & H4).
    apply Matches_Lit in H1 as ->. apply Matches_Lit in H4 as ->.
    apply Matches_Plus_Class in H3 as [Hne Hd].
    exists inner. auto.
  - intros (inner & Hne & Hd & ->).
    constructor; [apply Matches_Lit; reflexivity | ].
    constructor; [ | apply Matches_Lit; reflexivity].
    apply Matches_Plus_Class. auto.
Qed.

Lemma test_root (t : str) :
  (length t =? 1) &&
  match nth_error t 0 with Some c => (c =? slash)%N | None => false end = true
  <-> RootPath t.
Proof.
  unfold RootPath. destruct t as [ | c [ | c' t]]; simpl.
  - split; discriminate.
  - rewrite N.eqb_eq. split; congruence.
  - split; discriminate.
Qed.

Lemma eqb_spec (s t : str) : JS.eqb s t = true <-> s = t.
Proof.
  unfold JS.eqb. destruct (list_eq_dec N.eq_dec s t); split; congruence.
Qed.

Lemma test_anchor (t : str) :
  JS.eqb (substring0 1 t) [hash] = true <-> InPageAnchor t.
Proof.
  rewrite eqb_spec. unfold InPageAnchor, substring0.
  destruct t as [ | c t]; simpl.
  - split; [discriminate | intros (rest & E); discriminate].
  - split.
    + intros E. injection E as ->. eauto.
    + intros (rest & E). injection E as -> _. reflexivity.
Qed.

Lemma isInternalReference_spec (t : str) :
  isInternalReference t = true <-> InternalReference t.
Proof.
  unfold isInternalReference, InternalReference.
  rewrite !orb_true_iff, test_internal, test_root, test_anchor,
    test_protocolRelative, test_escaped.
  tauto.
Qed.

Lemma addProtocol_cases (t : str) :
  addProtocol t =
  if test re_protocol t then t
  else if isInternalReference t then t else js "http://" ++ t.
Proof.
  unfold addProtocol, isInternalReference. cbv zeta.
  destruct (test re_protocol t); [reflexivity | ].
  destruct (test re_internal t); [reflexivity | ].
  destruct ((length t =? 1) && _); [reflexivity | ].
  destruct (JS.eqb (substring0 1 t) [hash]); [reflexivity | ].
  destruct (test re_protocolRelative t); [reflexivity | ].
  destruct (test re_escaped t); reflexivity.
Qed.

Lemma HasScheme_dec (t : str) : HasScheme t \/ ~ HasScheme t.
Proof.
  destruct (test re_protocol t) eqn:E.
  - left. apply test_protocol. assumption.
  - right. intros H. apply test_protocol in H. congruence.
Qed.

Lemma InternalReference_dec (t : str) : InternalReference t \/ ~ InternalReference t.
Proof.
  destruct (isInternalReference t) eqn:E.
  - left. apply isInternalReference_spec. assumption.
  - right. intros H. apply isInternalReference_spec in H. congruence.
Qed.

(** [addProtocol], case by case. *)
Lemma addProtocol_scheme (t : str) : HasScheme t -> addProtocol t = t.
Proof.
  intros H. apply test_protocol in H. rewrite addProtocol_cases, H. reflexivity.
Qed.

Lemma addProtocol_internal (t : str) : InternalReference t -> addProtocol t = t.
Proof.
  intros H. apply isInternalReference_spec in H. rewrite addProtocol_cases, H.
  destruct (test re_protocol t); reflexivity.
Qed.

Lemma addProtocol_other (t : str) :
  ~ HasScheme t -> ~ InternalReference t -> addProtocol t = js "http://" ++ t.
Proof.
  intros Hs Hi. rewrite addProtocol_cases.
  destruct (test re_protocol t) eqn:Ep.
  { exfalso. apply Hs, test_protocol. assumption. }
  destruct (isInternalReference t) eqn:Ei.
  { exfalso. apply Hi, isInternalReference_spec. assumption. }
  reflexivity.
Qed.

End Shapes.

(* ================================================================== *)
(** ** The normaliser *)
(* ================================================================== *)

Lemma http_prefix_clean (t : str) :
  (forall c u, t = u ++ [c] -> isSpace c = false) ->
  trim (js "http://" ++ t) = js "http://" ++ t.
Proof.
  intros Hl. apply trim_clean.
  - intros c u E. simpl in E. injection E as <- _. reflexivity.
  - intros c u E. destruct t as [ | c0 t0].
    + change (js "http://" ++ []) with (js "http:/" ++ [slash]) in E.
      apply app_inj_tail in E as [_ <-]. reflexivity.
    + destruct (@exists_last _ (c0 :: t0)) as (t' & c' & Et); [discriminate | ].
      rewrite Et, app_assoc in E. apply app_inj_tail in E as [_ <-].
      apply (Hl c' t'). assumption.
Qed.

Lemma http_prefix_has_scheme (t : str) : HasScheme (js "http://" ++ t).
Proof.
  exists (js "http"), ([slash; slash] ++ t).
  split; [discriminate | ]. split; [reflexivity | ]. left. reflexivity.
Qed.

(** C2. [prepareLink] is the normaliser of the specification: the relation
    "trim, leave a string with a scheme or of one of the five
    internal-reference shapes unchanged, prepend [http://] to any other"
    holds between [s] and [r] exactly when [prepareLink s] is [r]; and the
    six scenario inputs give the stated results. *)
Theorem prepareLink_is_reference_normalize :
  (forall s r : str, Normalizes s r <-> prepareLink s = r)
  /\ prepareLink (js "vc.ru") = js "http://vc.ru"
  /\ prepareLink (js "/general") = js "/general"
  /\ prepareLink (js "/") = js "/"
  /\ prepareLink (js "#results") = js "#results"
  /\ prepareLink (js "//cdn.example.com/x") = js "//cdn.example.com/x"
  /\ prepareLink (js "[token]") = js "[token]".
Proof.
  split; [ | repeat split; reflexivity].
  intros s r. unfold prepareLink, Normalizes. split.
  - intros (t & Ht & H). apply trim_unique in Ht. rewrite Ht.
    destruct H as [[Hs ->] | [(Hs & Hi & ->) | (Hs & Hi & ->)]].
    + apply Shapes.addProtocol_scheme; assumption.
    + apply Shapes.addProtocol_internal; assumption.
    + apply Shapes.addProtocol_other; assumption.
  - intros <-. exists (trim s). split; [apply trim_spec | ].
    destruct (Shapes.HasScheme_dec (trim s)) as [Hs | Hs].
    + left. split; [assumption | apply Shapes.addProtocol_scheme; assumption].
    + right. destruct (Shapes.InternalReference_dec (trim s)) as [Hi | Hi].
      * left. repeat split; try assumption.
        apply Shapes.addProtocol_internal; assumption.
      * right. repeat split; try assumption.
        apply Shapes.addProtocol_other; assumption.
Qed.

(** Inputs at the edge of the shapes: white space after the slash, a third
    slash, empty brackets and a blank string are not internal references,
    and get the protocol. *)
Lemma prepareLink_at_the_edges :
  prepareLink (js "/ a") = js "http:/// a"
  /\ prepareLink (js "///a") = js "http://///a"
  /\ prepareLink (js "[]") = js "http://[]"
  /\ prepareLink (js "   ") = js "http://"
  /\ prepareLink (js "  localhost:3000 ") = js "localhost:3000".
Proof. repeat split; reflexivity. Qed.

(** C3. Normalisation is idempotent: [prepareLink (prepareLink s)] is
    [prepareLink s] for every string [s]. *)
Theorem prepareLink_idempotent :
  forall s : str, prepareLink (prepareLink s) = prepareLink s.
Proof.
  intros s. unfold prepareLink.
  destruct (trim_spec s) as (_ & Hh & Hl).
  destruct (Shapes.HasScheme_dec (trim s)) as [Hs | Hs].
  - rewrite (Shapes.addProtocol_scheme Hs), trim_idempotent.
    apply Shapes.addProtocol_scheme; assumption.
  - destruct (Shapes.InternalReference_dec (trim s)) as [Hi | Hi].
    + rewrite (Shapes.addProtocol_internal Hi), trim_idempotent.
      apply Shapes.addProtocol_internal; assumption.
    + rewrite (Shapes.addProtocol_other Hs Hi), (http_prefix_clean Hl).
      apply Shapes.addProtocol_scheme, http_prefix_has_scheme.
Qed.

(* ================================================================== *)
(** ** The document's editing commands *)
(* ================================================================== *)

Section Editing.

Variable d : Document.

Lemma nth_error_split_at (e : Element) (n0 : Node) :
  nth_error d e = Some n0 ->
  d = firstn e d ++ n0 :: skipn (S e) d /\ length (firstn e d) = e.
Proof.
  intros H. split.
  - rewrite <- (firstn_skipn e d) at 1. f_equal.
    clear - H. revert e H. induction d as [ | n d' IH]; intros [ | e] H; simpl in *;
      try discriminate.
    + congruence.
    + apply IH. assumption.
  - apply firstn_length_le. apply Nat.lt_le_incl, nth_error_Some. congruence.
Qed.

Lemma nth_error_middle (l1 l2 : Document) (n : Node) :
  nth_error (l1 ++ n :: l2) (length l1) = Some n.
Proof. rewrite nth_error_app2, Nat.sub_diag; [reflexivity | lia]. Qed.

Lemma nth_error_replaceAt (e : Element) (n n0 : Node) :
  nth_error d e = Some n0 -> nth_error (replaceAt e n d) e = Some n.
Proof.
  intros H. unfold replaceAt. rewrite H.
  destruct (nth_error_split_at e H) as [_ El].
  rewrite <- El at 3. apply nth_error_middle.
Qed.

Lemma replaceAt_replaceAt (e : Element) (n1 n2 n0 : Node) :
  nth_error d e = Some n0 ->
  replaceAt e n2 (replaceAt e n1 d) = replaceAt e n2 d.
Proof.
  intros H. unfold replaceAt at 1.
  rewrite (nth_error_replaceAt e n1 H).
  unfold replaceAt. rewrite H.
  destruct (nth_error_split_at e H) as [_ El].
  f_equal.
  - rewrite firstn_app, firstn_firstn, Nat.min_id.
    rewrite El, Nat.sub_diag. simpl. apply app_nil_r.
  - f_equal.
    change (firstn e d ++ [n1] ++ skipn (S e) d)
      with (firstn e d ++ n1 :: skipn (S e) d).
    replace (firstn e d ++ n1 :: skipn (S e) d)
      with ((firstn e d ++ [n1]) ++ skipn (S e) d)
      by (rewrite <- app_assoc; reflexivity).
    rewrite skipn_app.
    replace (length (firstn e d ++ [n1])) with (S e)
      by (rewrite length_app, El; simpl; lia).
    rewrite Nat.sub_diag, skipn_all2; [reflexivity | ].
    rewrite length_app, El. simpl. lia.
Qed.

Lemma textContent_replaceAt (e : Element) (n n0 : Node) :
  nth_error d e = Some n0 -> textOf n = textOf n0 ->
  textContent (replaceAt e n d) = textContent d.
Proof.
  intros H Et. unfold replaceAt. rewrite H.
  destruct (nth_error_split_at e H) as [Ed _].
  rewrite Ed at 3. unfold textContent.
  change ([n] ++ skipn (S e) d) with (n :: skipn (S e) d).
  rewrite !map_app, !concat_app, !map_cons, !concat_cons, Et. reflexivity.
Qed.

(** Linking the full contents of an element replaces the element. *)
Lemma createLink_whole_element (value : str) (a : Element) (n : Node) :
  nth_error d a = Some n ->
  createLink value (mkRange a 0 a (length (textOf n))) d
  = (replaceAt a (Anchor (Some value) None (textOf n)) d,
     mkRange a 0 a (length (textOf n))).
Proof.
  intros H. unfold createLink, inDocument, selectedText, replaceAt. simpl.
  rewrite H, Nat.eqb_refl, Nat.leb_refl, Nat.ltb_irrefl. simpl.
  rewrite Nat.sub_0_r, firstn_all, skipn_all. simpl.
  destruct (nth_error_split_at a H) as [_ El].
  rewrite app_nil_r, El. reflexivity.
Qed.

(** Linking any range of the document leaves the selection on the contents
    of a new anchor that carries the link and no title. *)
Lemma createLink_selects_anchor (value : str) (r : Range) :
  inDocument d r = true ->
  exists k,
    snd (createLink value r d) = mkRange k 0 k (length (selectedText d r))
    /\ nth_error (fst (createLink value r d)) k
       = Some (Anchor (Some value) None (selectedText d r)).
Proof.
  intros H. unfold createLink. rewrite H.
  unfold inDocument in H.
  destruct (nth_error d (startNode r)) as [ns | ]; [ | discriminate].
  destruct (nth_error d (endNode r)) as [ne | ]; [ | discriminate].
  eexists. split; [reflexivity | ]. simpl.
  apply nth_error_middle.
Qed.

End Editing.

(** Linking a range of the document keeps the text a reader sees. *)
Lemma textContent_app (d1 d2 : Document) :
  textContent (d1 ++ d2) = textContent d1 ++ textContent d2.
Proof. unfold textContent. rewrite map_app, concat_app. reflexivity. Qed.

Lemma textContent_cons (n : Node) (d : Document) :
  textContent (n :: d) = textOf n ++ textContent d.
Proof. reflexivity. Qed.

Lemma textContent_remainder (n : Node) (s : str) :
  textContent (remainder n s) = s.
Proof.
  destruct s as [ | c s]; [reflexivity | ].
  destruct n; unfold textContent; simpl; rewrite app_nil_r; reflexivity.
Qed.

Lemma skipn_nth_error (d : Document) (e : Element) (n : Node) :
  nth_error d e = Some n -> skipn e d = n :: skipn (S e) d.
Proof.
  revert e. induction d as [ | m d IH]; intros [ | e] H; simpl in *; try discriminate.
  - congruence.
  - apply IH. assumption.
Qed.

Lemma createLink_textContent (d : Document) (value : str) (r : Range) :
  inDocument d r = true ->
  textContent (fst (createLink value r d)) = textContent d.
Proof.
  intros H. unfold createLink. rewrite H. unfold inDocument in H.
  destruct (nth_error d (startNode r)) as [ns | ] eqn:Es; [ | discriminate].
  destruct (nth_error d (endNode r)) as [ne | ] eqn:Ee; [ | discriminate].
  apply andb_true_iff in H as [H Hord]. apply andb_true_iff in H as [Hso Heo].
  apply Nat.leb_le in Hso, Heo.
  cbn [fst].
  rewrite !textContent_app, !textContent_remainder, textContent_cons.
  cbn [textOf]. unfold selectedText. rewrite Es, Ee.
  assert (Ed : textContent d =
               textContent (firstn (startNode r) d) ++ textOf ns
                 ++ textContent (skipn (S (startNode r)) d)).
  { rewrite <- (firstn_skipn (startNode r) d) at 1.
    rewrite textContent_app, (@skipn_nth_error _ _ _ Es), textContent_cons.
    reflexivity. }
  rewrite Ed. change (textContent []) with (@nil char).
  rewrite app_nil_r, <- !app_assoc. f_equal.
  destruct (startNode r =? endNode r) eqn:Eq.
  - apply Nat.eqb_eq in Eq. rewrite Eq, Nat.ltb_irrefl in Hord.
    simpl in Hord. apply Nat.leb_le in Hord.
    rewrite Eq in Es. rewrite Es in Ee. injection Ee as <-.
    rewrite Eq. rewrite !app_assoc. f_equal.
    rewrite <- (firstn_skipn (startOffset r) (textOf ns)) at 4.
    rewrite <- app_assoc. f_equal.
    rewrite <- (firstn_skipn (endOffset r - startOffset r)
                  (skipn (startOffset r) (textOf ns))) at 2.
    f_equal. rewrite skipn_skipn. f_equal. lia.
  - apply Nat.eqb_neq in Eq.
    apply orb_true_iff in Hord as [Hlt | Hx].
    2:{ discriminate Hx. }
    apply Nat.ltb_lt in Hlt.
    rewrite <- ?app_assoc.
    rewrite <- (firstn_skipn (startOffset r) (textOf ns)) at 3.
    rewrite <- ?app_assoc. f_equal. f_equal.
    rewrite <- (firstn_skipn (endNode r - S (startNode r)) (skipn (S (startNode r)) d)) at 2.
    rewrite textContent_app. f_equal.
    rewrite skipn_skipn.
    replace (endNode r - S (startNode r) + S (startNode r)) with (endNode r) by lia.
    rewrite (@skipn_nth_error _ _ _ Ee), textContent_cons.
    rewrite app_assoc, firstn_skipn. reflexivity.
Qed.

(* ================================================================== *)
(** ** The editing session *)
(* ================================================================== *)

(** Runs the monadic code of the tool on a world given by its fields. *)
Ltac run :=
  cbv beta iota zeta delta
    [bind ret gets modify emit throw record this_selection worldOf
     set_document set_windowSelection set_selection set_inputOpened
     upd_buttonClassList upd_rootClassList upd_linkClassList upd_titleClassList
     set_linkValue set_titleValue
     document windowSelection selection inputOpened buttonClassList
     rootClassList linkClassList titleClassList linkValue titleValue trace
     savedSelectionRange isFakeBackgroundEnabled
     Selection.new Selection.save Selection.restore Selection.setFakeBackground
     Selection.removeFakeBackground Selection.clearSaved Selection.findParentTag
     Selection.expandToTag Selection.collapseToEnd
     execCommand getAttribute setTitle unlink insertLink focus openActions
     closeActions toggleActions checkState clear inlineToolbar_close
     toolbar_close surround enterPressed keydown
     commandLink commandUnlink String.eqb Ascii.eqb Bool.eqb negb].

Ltac tidy_trace := repeat (rewrite <- app_assoc; cbn [app]).

(** C7. Closing the session while the fake background is active first
    snapshots the active selection, then restores the saved snapshot and
    removes the fake background, then re-applies the snapshot just taken;
    the selection that was active immediately before the close is the
    active one after it, whatever the saved one was. *)
Theorem closeActions_keeps_the_newer_selection (clearSavedSelection : bool) (w : World) :
  isFakeBackgroundEnabled (selection w) = true ->
  exists w',
    closeActions clearSavedSelection w = Ok tt w'
    /\ trace w' =
       trace w ++ [Save (windowSelection w);
                   Restore (savedSelectionRange (selection w));
                   RemoveFakeBackground;
                   Restore (windowSelection w)]
               ++ (if clearSavedSelection then [ClearSaved] else [])
    /\ isFakeBackgroundEnabled (selection w') = false
    /\ (forall current, windowSelection w = Some current ->
                        windowSelection w' = Some current).
Proof.
  destruct w as [d ws [sv fb] op bc rc lc tc lv tv tr]. simpl.
  intros ->. run.
  destruct ws as [cur | ], sv as [orig | ], clearSavedSelection;
    eexists; (split; [reflexivity | ]); cbn; tidy_trace;
    (split; [reflexivity | ]); (split; [reflexivity | ]);
    intros current E; congruence.
Qed.

(** C9. Closing an open input by the second click on the icon ([surround]
    with no range) or by the host's [clear] leaves the document as it was:
    no editing command is issued, the document and the button are
    unchanged, and the input is closed. *)
Theorem closing_without_commit_keeps_the_document (w : World) :
  inputOpened w = true ->
  (exists w',
      surround None w = Ok tt w'
      /\ document w' = document w
      /\ mutations (trace w') = mutations (trace w)
      /\ buttonClassList w' = buttonClassList w
      /\ Closed w')
  /\ (exists w',
         clear w = Ok tt w'
         /\ document w' = document w
         /\ mutations (trace w') = mutations (trace w)
         /\ buttonClassList w' = buttonClassList w
         /\ Closed w').
Proof.
  destruct w as [d ws [sv fb] op bc rc lc tc lv tv tr]. simpl.
  intros ->. unfold Closed, mutations. split.
  - run. destruct fb, ws as [cur | ], sv as [orig | ];
      eexists; (split; [reflexivity | ]); cbn;
      rewrite ?filter_app, ?length_app; cbn; repeat split; lia.
  - run. destruct fb, ws as [cur | ], sv as [orig | ];
      eexists; (split; [reflexivity | ]); cbn;
      rewrite ?filter_app, ?length_app; cbn; repeat split; lia.
Qed.

Lemma stripNewlines_clean (s : str) :
  existsb isNewline s = false -> stripNewlines s = s.
Proof.
  unfold stripNewlines. induction s as [ | c s IH]; simpl; [reflexivity | ].
  intros H. apply orb_false_iff in H as [Hc Hs]. rewrite Hc. simpl.
  f_equal. apply IH. assumption.
Qed.

Lemma stripNewlines_no_newline (s : str) :
  existsb isNewline (stripNewlines s) = false.
Proof.
  unfold stripNewlines. induction s as [ | c s IH]; simpl; [reflexivity | ].
  destruct (isNewline c) eqn:Ec; simpl; [assumption | ].
  rewrite Ec. assumption.
Qed.

(** What [checkState] puts in a field for an attribute. *)
Lemma prefill_cases (x : option str) :
  (x = Some (js "null") -> prefill x = [])
  /\ (x = None -> prefill x = [])
  /\ (forall v, x = Some v -> v <> js "null" -> prefill x = stripNewlines v).
Proof.
  unfold prefill. repeat split.
  - intros ->. reflexivity.
  - intros ->. reflexivity.
  - intros v -> Hv. unfold strictNe.
    destruct (JS.eqb v (js "null")) eqn:E;
      [apply Shapes.eqb_spec in E; contradiction | reflexivity].
Qed.

(** C10, as stated, fails on an attribute value with a line break: the
    title [line1], LF, [line2] is not the literal [null], yet the title
    field does not hold a copy of it; it holds [line1line2]. *)
Lemma checkState_drops_line_breaks :
  enclosing "A" (document closedOnBrokenTitle) (windowSelection closedOnBrokenTitle)
  = Some 0
  /\ nth_error (document closedOnBrokenTitle) 0
     = Some (Anchor (Some (js "http://x.com")) (Some titleWithBreak) (js "text"))
  /\ titleWithBreak <> js "null"
  /\ exists w',
       checkState None closedOnBrokenTitle = Ok true w'
       /\ titleValue w' = js "line1line2"
       /\ titleValue w' <> titleWithBreak.
Proof.
  split; [reflexivity | ]. split; [reflexivity | ]. split; [discriminate | ].
  eexists. split; [vm_compute; reflexivity | ].
  split; [reflexivity | discriminate].
Qed.

(** C10, amended. With the selection inside an annotation, [checkState]
    opens the input and fills it from the annotation's attributes: the
    literal string [null] gives the empty value, as an absent attribute
    does; any other value is copied with its line feeds and carriage
    returns removed, as a text input stores it, so that a value without
    line breaks, the empty string included, is copied as it is. *)
Theorem checkState_prefills_from_attributes
  (w : World) (arg : option Range) (a : Element) (h t : option str) (s : str) :
  enclosing "A" (document w) (windowSelection w) = Some a ->
  nth_error (document w) a = Some (Anchor h t s) ->
  exists w',
    checkState arg w = Ok true w'
    /\ inputOpened w' = true
    /\ (h = Some (js "null") -> linkValue w' = [])
    /\ (h = None -> linkValue w' = [])
    /\ (forall v, h = Some v -> v <> js "null" -> linkValue w' = stripNewlines v)
    /\ (forall v, h = Some v -> v <> js "null" -> existsb isNewline v = false ->
                  linkValue w' = v)
    /\ (t = Some (js "null") -> titleValue w' = [])
    /\ (t = None -> titleValue w' = [])
    /\ (forall v, t = Some v -> v <> js "null" -> titleValue w' = stripNewlines v)
    /\ (forall v, t = Some v -> v <> js "null" -> existsb isNewline v = false ->
                  titleValue w' = v).
Proof.
  destruct w as [d ws [sv fb] op bc rc lc tc lv tv tr]. simpl.
  intros He Ha. run. rewrite He. run. rewrite Ha. run.
  eexists. split; [reflexivity | ]. cbn.
  split; [reflexivity | ].
  change (toValue (if strictNe h (js "null") then h else Some (js "")))
    with (prefill h).
  change (toValue (if strictNe t (js "null") then t else Some (js "")))
    with (prefill t).
  destruct (prefill_cases h) as (H1 & H2 & H3), (prefill_cases t) as (T1 & T2 & T3).
  repeat split; try assumption.
  - intros v Eh Hv Hn. transitivity (stripNewlines v).
    + apply (H3 v Eh Hv).
    + apply stripNewlines_clean. assumption.
  - intros v Et Hv Hn. transitivity (stripNewlines v).
    + apply (T3 v Et Hv).
    + apply stripNewlines_clean. assumption.
Qed.

Lemma orEmpty_id (s : str) : orEmpty s = s.
Proof. destruct s; reflexivity. Qed.

Lemma validateURL_false (s : str) :
  existsb isSpace s = true -> validateURL s = false.
Proof.
  intros H. unfold validateURL, re_space.
  rewrite RegexFacts.test_search_class, H. reflexivity.
Qed.

Lemma validateURL_true (s : str) :
  existsb isSpace s = false -> validateURL s = true.
Proof.
  intros H. unfold validateURL, re_space.
  rewrite RegexFacts.test_search_class, H. reflexivity.
Qed.

Lemma notifications_snoc (t : list Event) (e : Event) :
  notifications (t ++ [e]) = notifications t + (if isNotification e then 1 else 0).
Proof.
  unfold notifications. rewrite filter_app, length_app. simpl.
  destruct (isNotification e); reflexivity.
Qed.

Lemma mutations_snoc (t : list Event) (e : Event) :
  mutations (t ++ [e]) = mutations t + (if isMutation e then 1 else 0).
Proof.
  unfold mutations. rewrite filter_app, length_app. simpl.
  destruct (isMutation e); reflexivity.
Qed.

(** C4, as stated, fails on a link text made of white space only: it is
    non-empty and contains a white-space character, yet Enter takes the
    empty-text path: the input closes, no warning is shown and [unlink] is
    issued. *)
Lemma enterPressed_blank_text_is_not_rejected :
  linkValue blankCommit <> []
  /\ existsb isSpace (linkValue blankCommit) = true
  /\ inputOpened blankCommit = true
  /\ ~ Rejected blankCommit (enterPressed blankCommit)
  /\ (exists w', enterPressed blankCommit = Ok tt w'
                 /\ inputOpened w' = false
                 /\ notifications (trace w') = 0
                 /\ mutations (trace w') = 1).
Proof.
  split; [discriminate | ]. split; [reflexivity | ]. split; [reflexivity | ].
  split.
  - intros (w' & E & Hopen & _). vm_compute in E. injection E as <-.
    discriminate Hopen.
  - eexists. split; [vm_compute; reflexivity | ]. repeat split.
Qed.

(** C4, amended. Enter on a link text that is not blank (non-empty after
    trimming) and contains a white-space character: validation fails, the
    input state (opened flag, link and title values) is unchanged, exactly
    one warning reaches the notifier, and the document is not mutated: no
    editing command is issued. *)
Theorem enterPressed_rejects_inner_white_space (w : World) :
  trim (linkValue w) <> [] ->
  existsb isSpace (linkValue w) = true ->
  validateURL (linkValue w) = false
  /\ Rejected w (enterPressed w)
  /\ (inputOpened w = true -> inputOpened (worldOf (enterPressed w)) = true).
Proof.
  destruct w as [d ws [sv fb] op bc rc lc tc lv tv tr]. simpl.
  intros Hne Hsp. pose proof (validateURL_false _ Hsp) as Hv.
  split; [assumption | ].
  assert (E : enterPressed (mkWorld d ws (mkSelectionUtils sv fb) op bc rc lc tc lv tv tr)
              = Ok tt (mkWorld d ws (mkSelectionUtils sv fb) op bc rc lc tc lv tv
                         ((tr ++ [NotifierShow "Pasted link is not valid." "error"])
                             ++ [Log "Incorrect Link pasted" "warn" lv]))).
  { run. rewrite !orEmpty_id. destruct (trim lv); [congruence | ].
    cbn [truthy negb]. rewrite Hv. reflexivity. }
  rewrite E. split.
  - eexists. split; [reflexivity | ]. cbn [inputOpened linkValue titleValue trace document].
    rewrite !notifications_snoc, !mutations_snoc. cbn. repeat split; lia.
  - intros ->. reflexivity.
Qed.

Lemma removeLink_enclosed (d : Document) (r : Range) (h t : option str) (s : str) :
  nth_error d (startNode r) = Some (Anchor h t s) ->
  removeLink (Some r) d = replaceAt (startNode r) (Text s) d.
Proof.
  intros H. unfold removeLink, enclosing. rewrite H. simpl. rewrite H. reflexivity.
Qed.

(** Enter on a blank link text: the saved selection is restored, [unlink]
    is issued on it, and the session is closed. *)
Lemma enterPressed_blank (w : World) :
  trim (linkValue w) = [] ->
  exists w' closing,
    enterPressed w = Ok tt w'
    /\ trace w' = trace w ++ [Restore (savedSelectionRange (selection w));
                              ExecCommand "unlink" None;
                              PreventDefault] ++ closing
    /\ notifications closing = 0
    /\ mutations closing = 0
    /\ Closed w'
    /\ document w' =
       removeLink (match savedSelectionRange (selection w) with
                   | Some r => Some r
                   | None => windowSelection w
                   end) (document w)
    /\ windowSelection w' =
       match savedSelectionRange (selection w) with
       | Some r => Some r
       | None => windowSelection w
       end.
Proof.
  destruct w as [d ws [sv fb] op bc rc lc tc lv tv tr]. simpl.
  intros Hb. run. rewrite !orEmpty_id, Hb. cbn [truthy negb].
  unfold Closed.
  destruct sv as [orig | ], fb; run.
  - exists (mkWorld (removeLink (Some orig) d) (Some orig)
              (mkSelectionUtils None false) false bc
              (classList_remove CSS.inputShowed rc)
              (classList_remove CSS.inputShowed lc)
              (classList_remove CSS.inputShowed tc) [] []
              (tr ++ [Restore (Some orig); ExecCommand "unlink" None; PreventDefault]
                  ++ [Save (Some orig); Restore (Some orig); RemoveFakeBackground;
                      Restore (Some orig); ClearSaved])).
    eexists. split; [tidy_trace; reflexivity | ]. cbn. repeat split.
  - eexists. exists [ClearSaved]. split; [tidy_trace; reflexivity | ].
    cbn. repeat split.
  - destruct ws as [cur | ]; run.
    + eexists. exists [Save (Some cur); Restore None; RemoveFakeBackground;
                       Restore (Some cur); ClearSaved].
      split; [tidy_trace; reflexivity | ]. cbn. repeat split.
    + eexists. exists [Save None; Restore None; RemoveFakeBackground;
                       Restore None; ClearSaved].
      split; [tidy_trace; reflexivity | ]. cbn. repeat split.
  - eexists. exists [ClearSaved]. split; [tidy_trace; reflexivity | ].
    cbn. repeat split.
Qed.

(** C6. Enter with an empty link text restores the saved selection and
    issues [unlink], with no validation failure and no call to the
    notifier, and closes the session; an annotation enclosing the saved
    selection is replaced by its text, so the visible text is unchanged. *)
Theorem enterPressed_empty_text_unlinks (w : World) :
  linkValue w = [] ->
  exists w' closing,
    enterPressed w = Ok tt w'
    /\ trace w' = trace w ++ [Restore (savedSelectionRange (selection w));
                              ExecCommand "unlink" None;
                              PreventDefault] ++ closing
    /\ notifications (trace w') = notifications (trace w)
    /\ mutations closing = 0
    /\ Closed w'
    /\ (forall r h t s,
           savedSelectionRange (selection w) = Some r ->
           nth_error (document w) (startNode r) = Some (Anchor h t s) ->
           windowSelection w' = Some r
           /\ nth_error (document w') (startNode r) = Some (Text s)
           /\ document w' = replaceAt (startNode r) (Text s) (document w)
           /\ textContent (document w') = textContent (document w)).
Proof.
  intros Hempty.
  destruct (enterPressed_blank w)
    as (w' & closing & E & Ht & Hn & Hm & Hc & Hd & Hsel).
  { rewrite Hempty. reflexivity. }
  exists w', closing. split; [assumption | ]. split; [assumption | ].
  split.
  { rewrite Ht. unfold notifications in *. rewrite !filter_app, !length_app.
    rewrite Hn. simpl. lia. }
  split; [assumption | ]. split; [assumption | ].
  intros r h t s Hs Ha. rewrite Hs in Hd, Hsel.
  rewrite (removeLink_enclosed _ _ Ha) in Hd. rewrite Hd.
  split; [assumption | ].
  split; [eapply nth_error_replaceAt; eassumption | ].
  split; [reflexivity | ].
  eapply textContent_replaceAt; [eassumption | reflexivity].
Qed.

Lemma enclosing_anchor (d : Document) (r : Range) (h t : option str) (s : str) :
  nth_error d (startNode r) = Some (Anchor h t s) ->
  enclosing "A" d (Some r) = Some (startNode r).
Proof. intros H. unfold enclosing. rewrite H. reflexivity. Qed.

Lemma enclosing_inv (d : Document) (sel : option Range) (a : Element) :
  enclosing "A" d sel = Some a ->
  exists r h t s,
    sel = Some r /\ a = startNode r /\ nth_error d a = Some (Anchor h t s).
Proof.
  unfold enclosing. destruct sel as [r | ]; [ | discriminate].
  destruct (nth_error d (startNode r)) as [[s | h t s] | ] eqn:E;
    simpl; try discriminate.
  intros H. injection H as <-. exists r, h, t, s. auto.
Qed.

(** [insertLink] on a selection of the document: it returns, the selection
    is the contents of an anchor carrying the link and the title, and
    nothing but the document, the selection and the trace has changed. On a
    selection inside an anchor, that anchor as a whole is the one edited. *)
Lemma insertLink_ok (link title : str) (d : Document) (r : Range)
  (su : SelectionUtils) (op : bool) (bc rc lc tc : ClassList) (lv tv : str)
  (tr : list Event) :
  inDocument d r = true ->
  exists d' k inner events,
    insertLink link title (mkWorld d (Some r) su op bc rc lc tc lv tv tr)
    = Ok tt (mkWorld d' (Some (mkRange k 0 k (length inner)))
               su op bc rc lc tc lv tv (tr ++ events))
    /\ nth_error d' k = Some (Anchor (Some link) (Some title) inner)
    /\ (events = [ExecCommand "createLink" (Some link)]
        \/ exists a, events = [ExpandToTag a; ExecCommand "createLink" (Some link)])
    /\ (forall a h t s,
           enclosing "A" d (Some r) = Some a ->
           nth_error d a = Some (Anchor h t s) ->
           events = [ExpandToTag a; ExecCommand "createLink" (Some link)]
           /\ d' = replaceAt a (Anchor (Some link) (Some title) s) d
           /\ k = a /\ inner = s).
Proof.
  intros Hin. run.
  destruct (enclosing "A" d (Some r)) as [a | ] eqn:He.
  - destruct (@enclosing_inv _ _ _ He) as (r0 & h & t & s & Er & Ea & Hn).
    injection Er as <-. run. rewrite Hn. run.
    rewrite (@createLink_whole_element d link a _ Hn). run.
    change (textOf (Anchor h t s)) with s.
    pose proof (@nth_error_replaceAt d a (Anchor (Some link) None s) _ Hn) as Hn'.
    rewrite Ea. rewrite Ea in Hn'.
    rewrite (@enclosing_anchor _ {| startNode := startNode r; startOffset := 0;
                                    endNode := startNode r; endOffset := length s |}
               _ _ _ Hn').
    cbn [startNode]. rewrite Hn'.
    rewrite Ea in Hn. rewrite (@replaceAt_replaceAt d _ _ _ _ Hn).
    exists (replaceAt (startNode r) (Anchor (Some link) (Some title) s) d),
      (startNode r), s, [ExpandToTag (startNode r); ExecCommand "createLink" (Some link)].
    split; [tidy_trace; reflexivity | ].
    split; [eapply nth_error_replaceAt; eassumption | ].
    split; [right; eexists; reflexivity | ].
    intros a' h' t' s' Ha' Hn2. injection Ha' as <-.
    rewrite Hn in Hn2. injection Hn2 as <- <- <-. auto.
  - destruct (@createLink_selects_anchor d link r Hin) as (k & Hsel & Hk).
    destruct (createLink link r d) as [d' r'] eqn:Ec. simpl in Hsel, Hk. subst r'.
    run.
    rewrite (@enclosing_anchor _ {| startNode := k; startOffset := 0;
                                    endNode := k;
                                    endOffset := length (selectedText d r) |}
               _ _ _ Hk).
    cbn [startNode]. rewrite Hk.
    exists (replaceAt k (Anchor (Some link) (Some title) (selectedText d r)) d'),
      k, (selectedText d r), [ExecCommand "createLink" (Some link)].
    split; [reflexivity | ].
    split; [eapply nth_error_replaceAt; eassumption | ].
    split; [left; reflexivity | ].
    intros a h t s Ha. discriminate Ha.
Qed.

(** As [run], leaving [insertLink] folded. *)
Ltac run_around_insert :=
  cbv beta iota zeta delta
    [bind ret gets modify emit throw record this_selection worldOf
     set_document set_windowSelection set_selection set_inputOpened
     upd_buttonClassList upd_rootClassList upd_linkClassList upd_titleClassList
     set_linkValue set_titleValue
     document windowSelection selection inputOpened buttonClassList
     rootClassList linkClassList titleClassList linkValue titleValue trace
     savedSelectionRange isFakeBackgroundEnabled
     Selection.new Selection.save Selection.restore Selection.setFakeBackground
     Selection.removeFakeBackground Selection.clearSaved Selection.findParentTag
     Selection.expandToTag Selection.collapseToEnd
     getAttribute focus openActions closeActions toggleActions clear
     inlineToolbar_close toolbar_close enterPressed keydown
     endNode endOffset negb].

(** C8. [insertLink] on a selection of the document returns, and the anchor
    that [findParentTag] then finds around the selection carries the given
    link as its [href] and the given title (the empty string included) as
    its [title]. On a selection inside an existing anchor the selection is
    first expanded to that anchor, so that the whole anchor is the one
    edited. *)
Theorem insertLink_edits_the_whole_link (w : World) (link title : str) (r : Range) :
  windowSelection w = Some r ->
  inDocument (document w) r = true ->
  exists w' k,
    insertLink link title w = Ok tt w'
    /\ Selection.findParentTag "A" w' = Ok (Some k) w'
    /\ getAttribute k "href" w' = Ok (Some link) w'
    /\ getAttribute k "title" w' = Ok (Some title) w'
    /\ (forall a h t s,
           Selection.findParentTag "A" w = Ok (Some a) w ->
           nth_error (document w) a = Some (Anchor h t s) ->
           trace w' = trace w ++ [ExpandToTag a; ExecCommand "createLink" (Some link)]
           /\ windowSelection w' = Some (mkRange a 0 a (length s))
           /\ document w' = replaceAt a (Anchor (Some link) (Some title) s) (document w)).
Proof.
  destruct w as [d ws su op bc rc lc tc lv tv tr]. simpl.
  intros -> Hin.
  destruct (@insertLink_ok link title d r su op bc rc lc tc lv tv tr Hin)
    as (d' & k & inner & events & E & Hk & _ & Hwhole).
  rewrite E. eexists. exists k. split; [reflexivity | ].
  split.
  { run. erewrite enclosing_anchor; [reflexivity | exact Hk]. }
  split; [run; rewrite Hk; reflexivity | ].
  split; [run; rewrite Hk; reflexivity | ].
  intros a h t s Hfind Ha.
  cbv [Selection.findParentTag bind gets ret document windowSelection] in Hfind.
  injection Hfind as Hfind.
  destruct (Hwhole a h t s Hfind Ha) as (-> & -> & -> & ->).
  cbn. auto.
Qed.

(** C5. Enter on a link text that is not blank and has no white space, with
    a saved selection of the document: the handler normalises the text,
    restores the saved selection, removes the fake background, inserts the
    link with the normalised text and the title value, collapses the
    selection to the end of the new annotation and closes the inline
    toolbar, which closes the session: input not opened, fields empty. *)
Theorem enterPressed_commits_a_valid_link (w : World) (r : Range) :
  trim (linkValue w) <> [] ->
  existsb isSpace (linkValue w) = false ->
  savedSelectionRange (selection w) = Some r ->
  inDocument (document w) r = true ->
  exists w' insertion k inner,
    enterPressed w = Ok tt w'
    /\ trace w' =
       trace w ++ [Restore (Some r); RemoveFakeBackground]
               ++ insertion
               ++ [PreventDefault; StopPropagation; StopImmediatePropagation;
                   CollapseToEnd; InlineToolbarClose; ClearSaved]
    /\ (insertion = [ExecCommand "createLink" (Some (prepareLink (linkValue w)))]
        \/ exists a,
             insertion = [ExpandToTag a;
                          ExecCommand "createLink" (Some (prepareLink (linkValue w)))])
    /\ nth_error (document w') k
       = Some (Anchor (Some (prepareLink (linkValue w))) (Some (titleValue w)) inner)
    /\ windowSelection w' = Some (mkRange k (length inner) k (length inner))
    /\ isFakeBackgroundEnabled (selection w') = false
    /\ Closed w'.
Proof.
  destruct w as [d ws [sv fb] op bc rc lc tc lv tv tr]. simpl.
  intros Hne Hsp -> Hin. pose proof (validateURL_true _ Hsp) as Hv.
  run_around_insert. rewrite !orEmpty_id.
  destruct (trim lv) eqn:Et; [congruence | ]. cbn [truthy negb]. rewrite Hv.
  cbn [negb].
  match goal with
  | |- context [insertLink ?l ?t (mkWorld _ _ ?su' _ _ _ _ _ _ _ ?tr')] =>
      destruct (@insertLink_ok l t d r su' op bc rc lc tc lv tv tr' Hin)
        as (d' & k & inner & events & E & Hk & Hev & _)
  end.
  rewrite E. run_around_insert.
  eexists. exists events, k, inner.
  split; [reflexivity | ]. cbn.
  split; [tidy_trace; reflexivity | ].
  split; [assumption | ].
  unfold Closed. cbn. repeat split; assumption.
Qed.

Lemma enclosing_text (d : Document) (r : Range) (s : str) :
  nth_error d (startNode r) = Some (Text s) ->
  enclosing "A" d (Some r) = None.
Proof. intros H. unfold enclosing. rewrite H. reflexivity. Qed.

(** C1, as stated, fails: activating the closed tool on a non-empty
    selection inside a link does not open the editor on it. The tool ends
    closed, its input empty, and the link is gone from the document. *)
Lemma surround_on_a_link_does_not_open_editing :
  inputOpened closedOnLink = false
  /\ windowSelection closedOnLink = Some (mkRange 1 1 1 3)
  /\ selectedText (document closedOnLink) (mkRange 1 1 1 3) = js "ex"
  /\ enclosing "A" (document closedOnLink) (windowSelection closedOnLink) = Some 1
  /\ ~ OpensEditing closedOnLink 1 (surround (Some (mkRange 1 1 1 3)) closedOnLink)
  /\ (exists w',
         surround (Some (mkRange 1 1 1 3)) closedOnLink = Ok tt w'
         /\ inputOpened w' = false
         /\ linkValue w' = []
         /\ nth_error (document w') 1 = Some (Text (js "text"))).
Proof.
  repeat (split; [reflexivity | ]). split.
  - intros (w' & h & t & s & E & _ & _ & _ & Hopen & _).
    vm_compute in E. injection E as <-. discriminate Hopen.
  - eexists. split; [vm_compute; reflexivity | ]. repeat split.
Qed.

(** C1, amended. Activating the closed tool on a selection inside an
    annotation sets the fake background and captures the selection, then
    expands the selection to the annotation and removes it with [unlink],
    closes the session and closes the host toolbar. It ends closed, with
    empty fields, no fake background and no saved selection; the annotation
    is replaced by its text. *)
Theorem surround_on_annotation_unlinks
  (w : World) (range r : Range) (h t : option str) (s : str) :
  inputOpened w = false ->
  windowSelection w = Some r ->
  nth_error (document w) (startNode r) = Some (Anchor h t s) ->
  exists w',
    surround (Some range) w = Ok tt w'
    /\ trace w' =
       trace w ++ [SetFakeBackground;
                   Save (Some r);
                   ExpandToTag (startNode r);
                   ExecCommand "unlink" None;
                   Save (Some (mkRange (startNode r) 0 (startNode r) (length s)));
                   Restore (Some r);
                   RemoveFakeBackground;
                   Restore (Some (mkRange (startNode r) 0 (startNode r) (length s)));
                   ClearSaved;
                   ToolbarClose]
    /\ document w' = replaceAt (startNode r) (Text s) (document w)
    /\ nth_error (document w') (startNode r) = Some (Text s)
    /\ textContent (document w') = textContent (document w)
    /\ isFakeBackgroundEnabled (selection w') = false
    /\ savedSelectionRange (selection w') = None
    /\ Closed w'.
Proof.
  destruct w as [d ws [sv fb] op bc rc lc tc lv tv tr]. simpl.
  intros -> -> Ha. run.
  rewrite (@enclosing_anchor d r h t s Ha). run. rewrite Ha. run.
  change (textOf (Anchor h t s)) with s.
  set (whole := {| startNode := startNode r; startOffset := 0;
                   endNode := startNode r; endOffset := length s |}).
  rewrite (@removeLink_enclosed d whole h t s Ha). run.
  change (startNode whole) with (startNode r).
  pose proof (@nth_error_replaceAt d (startNode r) (Text s) _ Ha) as Ha'.
  rewrite (@enclosing_text _ whole s Ha'). run.
  eexists. split; [reflexivity | ]. cbn.
  split; [tidy_trace; reflexivity | ].
  split; [reflexivity | ]. split; [assumption | ].
  split; [eapply textContent_replaceAt; [eassumption | reflexivity] | ].
  unfold Closed. cbn. repeat split.
Qed.

(** With no selection active at the time of the close, the saved selection,
    if there is one, is the active one after it. *)
Lemma closeActions_without_selection (clearSavedSelection : bool) (w : World) :
  isFakeBackgroundEnabled (selection w) = true ->
  windowSelection w = None ->
  exists w',
    closeActions clearSavedSelection w = Ok tt w'
    /\ windowSelection w' = savedSelectionRange (selection w).
Proof.
  destruct w as [d ws [sv fb] op bc rc lc tc lv tv tr]. simpl.
  intros -> ->. run.
  destruct sv as [orig | ], clearSavedSelection; eexists; split; reflexivity.
Qed.

(** [insertLink] keeps the text a reader sees. *)
Lemma insertLink_keeps_the_text (w : World) (link title : str) (r : Range) :
  windowSelection w = Some r ->
  inDocument (document w) r = true ->
  textContent (document (worldOf (insertLink link title w)))
  = textContent (document w).
Proof.
  destruct w as [d ws su op bc rc lc tc lv tv tr]. simpl.
  intros -> Hin. run.
  destruct (enclosing "A" d (Some r)) as [a | ] eqn:He.
  - destruct (@enclosing_inv _ _ _ He) as (r0 & h & t & s & Er & Ea & Hn).
    injection Er as <-. run. rewrite Hn. run.
    rewrite (@createLink_whole_element d link a _ Hn). run.
    change (textOf (Anchor h t s)) with s.
    pose proof (@nth_error_replaceAt d a (Anchor (Some link) None s) _ Hn) as Hn'.
    rewrite Ea in *.
    rewrite (@enclosing_anchor _ {| startNode := startNode r; startOffset := 0;
                                    endNode := startNode r; endOffset := length s |}
               _ _ _ Hn').
    cbn [startNode]. rewrite Hn'. cbn.
    rewrite (@replaceAt_replaceAt d _ _ _ _ Hn).
    eapply textContent_replaceAt; [eassumption | reflexivity].
  - pose proof (@createLink_textContent d link r Hin) as Ht.
    destruct (@createLink_selects_anchor d link r Hin) as (k & Hsel & Hk).
    destruct (createLink link r d) as [d' r'] eqn:Ec. simpl in Hsel, Hk, Ht. subst r'.
    run.
    rewrite (@enclosing_anchor _ {| startNode := k; startOffset := 0;
                                    endNode := k;
                                    endOffset := length (selectedText d r) |}
               _ _ _ Hk).
    cbn [startNode]. rewrite Hk. cbn. rewrite <- Ht.
    eapply textContent_replaceAt; [eassumption | reflexivity].
Qed.

(* ================================================================== *)
(** ** The theorems on the sample pages *)
(* ================================================================== *)

(** The Enter key in either input is the commit intent. *)
Lemma keydown_enter : keydown ENTER_KEY = enterPressed.
Proof. reflexivity. Qed.

(** Closing while the user has selected something else: that selection is
    the active one after the close. *)
Lemma closeActions_keeps_the_newer_selection_on_sample :
  isFakeBackgroundEnabled (selection openElsewhere) = true
  /\ exists w',
       closeActions true openElsewhere = Ok tt w'
       /\ trace w' = [Save (Some (mkRange 2 1 2 5));
                      Restore (Some (mkRange 0 0 0 3));
                      RemoveFakeBackground;
                      Restore (Some (mkRange 2 1 2 5));
                      ClearSaved]
       /\ windowSelection w' = Some (mkRange 2 1 2 5).
Proof.
  split; [reflexivity | ].
  destruct (closeActions_keeps_the_newer_selection true openElsewhere eq_refl)
    as (w' & E & Ht & _ & Hsel).
  exists w'. split; [exact E | ]. split; [exact Ht | ].
  apply Hsel. reflexivity.
Defined.

(** Both ways of closing the open input of the sample leave its page as it
    was. *)
Lemma closing_without_commit_keeps_the_document_on_sample :
  inputOpened openElsewhere = true
  /\ (exists w', surround None openElsewhere = Ok tt w'
                 /\ document w' = samplePage /\ Closed w')
  /\ (exists w', clear openElsewhere = Ok tt w'
                 /\ document w' = samplePage /\ Closed w').
Proof.
  split; [reflexivity | ].
  destruct (closing_without_commit_keeps_the_document openElsewhere eq_refl)
    as [(w1 & E1 & D1 & _ & _ & C1) (w2 & E2 & D2 & _ & _ & C2)].
  split; [exists w1 | exists w2]; auto.
Defined.

(** [checkState] on the link of the sample page fills the input with its
    [href] and [title]. *)
Lemma checkState_prefills_from_attributes_on_sample :
  enclosing "A" (document closedOnLink) (windowSelection closedOnLink) = Some 1
  /\ nth_error (document closedOnLink) 1
     = Some (Anchor (Some (js "http://x.com")) (Some (js "X")) (js "text"))
  /\ exists w',
       checkState None closedOnLink = Ok true w'
       /\ linkValue w' = js "http://x.com"
       /\ titleValue w' = js "X".
Proof.
  split; [reflexivity | ]. split; [reflexivity | ].
  destruct (@checkState_prefills_from_attributes closedOnLink None 1
              (Some (js "http://x.com")) (Some (js "X")) (js "text")
              eq_refl eq_refl)
    as (w' & E & _ & _ & _ & _ & Hl & _ & _ & _ & Ht).
  exists w'. split; [exact E | ].
  split; [apply Hl | apply Ht]; (reflexivity || discriminate).
Defined.

(** The scenario input [go to site] is rejected. *)
Lemma enterPressed_rejects_inner_white_space_on_sample :
  trim (linkValue (openOnLink (js "go to site") (js ""))) <> []
  /\ existsb isSpace (linkValue (openOnLink (js "go to site") (js ""))) = true
  /\ validateURL (js "go to site") = false
  /\ Rejected (openOnLink (js "go to site") (js ""))
       (enterPressed (openOnLink (js "go to site") (js ""))).
Proof.
  assert (Hne : trim (linkValue (openOnLink (js "go to site") (js ""))) <> [])
    by (vm_compute; discriminate).
  split; [exact Hne | ]. split; [reflexivity | ].
  destruct (@enterPressed_rejects_inner_white_space
              (openOnLink (js "go to site") (js "")) Hne eq_refl)
    as (Hv & Hr & _).
  split; [exact Hv | exact Hr].
Defined.

(** Enter on an empty link text, the selection inside the link of the sample
    page: the link is gone, its text is still there. *)
Lemma enterPressed_empty_text_unlinks_on_sample :
  linkValue (openOnLink (js "") (js "")) = []
  /\ exists w',
       enterPressed (openOnLink (js "") (js "")) = Ok tt w'
       /\ nth_error (document w') 1 = Some (Text (js "text"))
       /\ textContent (document w') = js "see text here"
       /\ Closed w'.
Proof.
  split; [reflexivity | ].
  destruct (@enterPressed_empty_text_unlinks (openOnLink (js "") (js "")) eq_refl)
    as (w' & closing & E & _ & _ & _ & Hc & Hdoc).
  destruct (Hdoc (mkRange 1 1 1 3) (Some (js "http://x.com")) (Some (js "X"))
              (js "text") eq_refl eq_refl) as (_ & Hn & _ & Ht).
  exists w'. split; [exact E | ]. split; [exact Hn | ].
  split; [rewrite Ht; reflexivity | exact Hc].
Defined.

(** Inserting a link with an empty title on a part of the link of the
    sample page edits the whole of that link. *)
Lemma insertLink_edits_the_whole_link_on_sample :
  windowSelection (openOnLink (js "") (js "")) = Some (mkRange 1 1 1 3)
  /\ inDocument (document (openOnLink (js "") (js ""))) (mkRange 1 1 1 3) = true
  /\ exists w',
       insertLink (js "http://vc.ru") (js "") (openOnLink (js "") (js "")) = Ok tt w'
       /\ Selection.findParentTag "A" w' = Ok (Some 1) w'
       /\ getAttribute 1 "href" w' = Ok (Some (js "http://vc.ru")) w'
       /\ getAttribute 1 "title" w' = Ok (Some (js "")) w'
       /\ document w' =
          [Text (js "see ");
           Anchor (Some (js "http://vc.ru")) (Some (js "")) (js "text");
           Text (js " here")].
Proof.
  split; [reflexivity | ]. split; [reflexivity | ].
  destruct (@insertLink_edits_the_whole_link (openOnLink (js "") (js ""))
              (js "http://vc.ru") (js "") (mkRange 1 1 1 3) eq_refl eq_refl)
    as (w' & k & E & Hf & Hh & Ht & Hwhole).
  destruct (Hwhole 1 (Some (js "http://x.com")) (Some (js "X")) (js "text")
              eq_refl eq_refl) as (_ & Hsel & Hd).
  assert (Hk : k = 1).
  { cbv [Selection.findParentTag bind gets ret] in Hf. rewrite Hsel, Hd in Hf.
    vm_compute in Hf. injection Hf as Hf. symmetry. exact Hf. }
  subst k.
  exists w'. split; [exact E | ]. split; [exact Hf | ].
  split; [exact Hh | ]. split; [exact Ht | ]. rewrite Hd. reflexivity.
Defined.

(** Enter on [vc.ru] with the title [VC]. *)
Lemma enterPressed_commits_a_valid_link_on_sample :
  trim (linkValue (openOnLink (js "vc.ru") (js "VC"))) <> []
  /\ existsb isSpace (linkValue (openOnLink (js "vc.ru") (js "VC"))) = false
  /\ exists w' k inner,
       enterPressed (openOnLink (js "vc.ru") (js "VC")) = Ok tt w'
       /\ nth_error (document w') k
          = Some (Anchor (Some (js "http://vc.ru")) (Some (js "VC")) inner)
       /\ windowSelection w' = Some (mkRange k (length inner) k (length inner))
       /\ Closed w'.
Proof.
  assert (Hne : trim (linkValue (openOnLink (js "vc.ru") (js "VC"))) <> [])
    by (vm_compute; discriminate).
  split; [exact Hne | ]. split; [reflexivity | ].
  destruct (@enterPressed_commits_a_valid_link (openOnLink (js "vc.ru") (js "VC"))
              (mkRange 1 1 1 3) Hne eq_refl eq_refl eq_refl)
    as (w' & insertion & k & inner & E & _ & _ & Hk & Hsel & _ & Hc).
  exists w', k, inner. auto.
Defined.

(** Activating the closed tool inside the link of the sample page removes
    the link. *)
Lemma surround_on_annotation_unlinks_on_sample :
  inputOpened closedOnLink = false
  /\ windowSelection closedOnLink = Some (mkRange 1 1 1 3)
  /\ exists w',
       surround (Some (mkRange 1 1 1 3)) closedOnLink = Ok tt w'
       /\ document w' = [Text (js "see "); Text (js "text"); Text (js " here")]
       /\ Closed w'.
Proof.
  split; [reflexivity | ]. split; [reflexivity | ].
  destruct (@surround_on_annotation_unlinks closedOnLink (mkRange 1 1 1 3)
              (mkRange 1 1 1 3) (Some (js "http://x.com")) (Some (js "X"))
              (js "text") eq_refl eq_refl eq_refl)
    as (w' & E & _ & Hd & _ & _ & _ & _ & Hc).
  exists w'. split; [exact E | ]. split; [rewrite Hd; reflexivity | exact Hc].
Defined.

(* ================================================================== *)
(** ** More on validation and normalisation *)
(* ================================================================== *)

Lemma validateURL_existsb (s : str) : validateURL s = negb (existsb isSpace s).
Proof. unfold validateURL, re_space. rewrite RegexFacts.test_search_class. reflexivity. Qed.

Lemma trim_space_free (s : str) : validateURL s = true -> trim s = s.
Proof.
  intros H. pose proof (proj1 (Shapes.validateURL_spec s) H) as H'.
  apply trim_clean.
  - intros c u ->. apply H'. left. reflexivity.
  - intros c u ->. apply H'. apply in_or_app. right. left. reflexivity.
Qed.

Lemma addProtocol_result (t : str) :
  addProtocol t = t \/ addProtocol t = js "http://" ++ t.
Proof.
  rewrite Shapes.addProtocol_cases.
  destruct (test re_protocol t); [auto | ].
  destruct (isInternalReference t); auto.
Qed.

Lemma addProtocol_twice (t : str) : addProtocol (addProtocol t) = addProtocol t.
Proof.
  rewrite (Shapes.addProtocol_cases t).
  destruct (test re_protocol t) eqn:Ep.
  - rewrite Shapes.addProtocol_cases, Ep. reflexivity.
  - destruct (isInternalReference t) eqn:Ei.
    + rewrite Shapes.addProtocol_cases, Ep, Ei. reflexivity.
    + apply Shapes.addProtocol_scheme, http_prefix_has_scheme.
Qed.

Lemma prepareLink_of_valid (s : str) :
  validateURL s = true ->
  prepareLink s = addProtocol s /\ validateURL (prepareLink s) = true.
Proof.
  intros H. unfold prepareLink. rewrite trim_space_free by assumption.
  split; [reflexivity | ].
  destruct (addProtocol_result s) as [-> | ->]; [assumption | ].
  rewrite validateURL_existsb in *. rewrite existsb_app.
  apply negb_true_iff in H. rewrite H. reflexivity.
Qed.

(** The link that a commit writes. *)
Lemma committed_link_is_good (s : str) :
  truthy (trim s) = true -> validateURL s = true ->
  validateURL (prepareLink s) = true
  /\ prepareLink s <> []
  /\ addProtocol (prepareLink s) = prepareLink s.
Proof.
  intros Ht Hv. destruct (@prepareLink_of_valid s Hv) as [E Hv'].
  split; [assumption | ]. split.
  - rewrite E. rewrite (@trim_space_free s Hv) in Ht.
    destruct (addProtocol_result s) as [-> | ->]; [ | discriminate].
    destruct s; [discriminate | discriminate].
  - rewrite E. apply addProtocol_twice.
Qed.

(** X1. [validateURL] accepts a string exactly when none of its code units is
    white space or a line terminator; the empty string is accepted. *)
Theorem validateURL_accepts_exactly_the_space_free :
  (forall s : str, validateURL s = true <-> (forall c, In c s -> isSpace c = false))
  /\ validateURL [] = true.
Proof.
  split; [exact Shapes.validateURL_spec | reflexivity].
Qed.

(** X2. A link that passes validation is normalised without trimming
    anything, and the normalised link passes validation too: no white space
    reaches the document. *)
Theorem prepareLink_keeps_links_valid (s : str) :
  validateURL s = true ->
  prepareLink s = addProtocol s /\ validateURL (prepareLink s) = true.
Proof. apply prepareLink_of_valid. Qed.

(** X3. Whatever the input, the normalised link is not empty, has no white
    space at either end, and passes the protocol test or one of the five
    internal-reference tests of [addProtocol]: normalising it again, or
    adding the protocol again, changes nothing. *)
Theorem prepareLink_result_is_normal (s : str) :
  prepareLink s <> []
  /\ trim (prepareLink s) = prepareLink s
  /\ (test re_protocol (prepareLink s) = true
      \/ isInternalReference (prepareLink s) = true)
  /\ addProtocol (prepareLink s) = prepareLink s.
Proof.
  unfold prepareLink.
  destruct (trim_spec s) as (_ & Hh & Hl).
  assert (Hcases :
            (addProtocol (trim s) = trim s
             /\ (test re_protocol (trim s) = true \/ isInternalReference (trim s) = true))
            \/ (addProtocol (trim s) = js "http://" ++ trim s
                /\ test re_protocol (trim s) = false
                /\ isInternalReference (trim s) = false)).
  { rewrite Shapes.addProtocol_cases.
    destruct (test re_protocol (trim s)); [auto | ].
    destruct (isInternalReference (trim s)); auto. }
  destruct Hcases as [[E Ht] | (E & Hp & Hi)]; rewrite E.
  - split.
    + intros Hnil. rewrite Hnil in Ht. destruct Ht as [Ht | Ht]; discriminate Ht.
    + split; [apply trim_idempotent | ]. split; [assumption | ].
      assumption.
  - split; [discriminate | ].
    split; [apply http_prefix_clean; assumption | ].
    assert (Hs : test re_protocol (js "http://" ++ trim s) = true)
      by (apply Shapes.test_protocol, http_prefix_has_scheme).
    split; [left; assumption | ].
    rewrite Shapes.addProtocol_cases, Hs. reflexivity.
Qed.

(** X4. [addProtocol] alone is idempotent, on trimmed and untrimmed strings
    alike, and it only ever returns its argument or its argument after
    [http://]. *)
Theorem addProtocol_idempotent (t : str) :
  addProtocol (addProtocol t) = addProtocol t
  /\ (addProtocol t = t \/ addProtocol t = js "http://" ++ t).
Proof. split; [apply addProtocol_twice | apply addProtocol_result]. Qed.

(* ================================================================== *)
(** ** The tool over its whole life *)
(* ================================================================== *)

Lemma In_classList_add (c : string) (l : ClassList) : In c (classList_add c l).
Proof.
  unfold classList_add. destruct (existsb (String.eqb c) l) eqn:E.
  - apply existsb_exists in E as (x & Hx & Ex). apply String.eqb_eq in Ex. congruence.
  - apply in_or_app. right. left. reflexivity.
Qed.

Lemma not_In_classList_remove (c : string) (l : ClassList) : ~ In c (classList_remove c l).
Proof.
  unfold classList_remove. intros H. apply filter_In in H as [_ H].
  rewrite String.eqb_refl in H. discriminate.
Qed.

Lemma classList_remove_add (c : string) (l : ClassList) :
  ~ In c l -> classList_remove c (classList_add c l) = l.
Proof.
  intros H. unfold classList_add.
  destruct (existsb (String.eqb c) l) eqn:E.
  - apply existsb_exists in E as (x & Hx & Ex). apply String.eqb_eq in Ex. congruence.
  - unfold classList_remove. rewrite filter_app. simpl. rewrite String.eqb_refl. simpl.
    rewrite app_nil_r. clear E. induction l as [ | x l IH]; [reflexivity | ].
    simpl. destruct (String.eqb c x) eqn:Ex.
    + apply String.eqb_eq in Ex. subst. exfalso. apply H. left. reflexivity.
    + simpl. f_equal. apply IH. intros Hin. apply H. right. assumption.
Qed.

(** Runs a handler to its end, splitting on every test it makes. *)
Ltac split_test :=
  match goal with
  | |- context [match ?x with _ => _ end] =>
      first [ is_var x
            | match x with
              | enclosing _ _ _ => idtac
              | nth_error _ _ => idtac
              | createLink _ _ _ => idtac
              | truthy _ => idtac
              | validateURL _ => idtac
              | N.eqb _ _ => idtac
              | strictNe _ _ => idtac
              end ];
      destruct x eqn:?
  end.

Ltac crunch := repeat (run; split_test); run.

Ltac classes :=
  first [ assumption
        | repeat split;
          first [ apply In_classList_add
                | apply not_In_classList_remove
                | tauto ] ].

Lemma ShownIffOpened_after (w : World) (a : Action) :
  ShownIffOpened w -> ShownIffOpened (after w a).
Proof.
  destruct w as [d ws [sv fb] op bc rc lc tc lv tv tr].
  unfold ShownIffOpened, after, handle, shown.
  cbn [inputOpened rootClassList linkClassList titleClassList].
  intros H. destruct a as [range | arg | | k | sel | l t]; crunch; classes.
Qed.

Lemma FakeBackgroundOnlyWhileOpened_after (w : World) (a : Action) :
  FakeBackgroundOnlyWhileOpened w -> FakeBackgroundOnlyWhileOpened (after w a).
Proof.
  destruct w as [d ws [sv fb] op bc rc lc tc lv tv tr].
  unfold FakeBackgroundOnlyWhileOpened, after, handle.
  cbn [inputOpened selection isFakeBackgroundEnabled].
  intros H. destruct a as [range | arg | | k | sel | l t]; crunch;
    first [ assumption | reflexivity | discriminate | intros; auto; congruence ].
Qed.

Lemma afterAll_keeps (P : World -> Prop) :
  (forall w a, P w -> P (after w a)) ->
  forall l w, P w -> P (afterAll w l).
Proof.
  intros Hstep l. induction l as [ | a l IH]; intros w Hw; simpl.
  - assumption.
  - apply IH, Hstep, Hw.
Qed.

Lemma mounted_ShownIffOpened t config d sel : ShownIffOpened (mounted t config d sel).
Proof.
  unfold ShownIffOpened, shown. cbn.
  repeat split; intros H; cbn in H; intuition discriminate.
Qed.

(** X5. From the rendered tool on, whatever the host and the user do, the
    input and its two fields carry the class that shows them exactly when
    [inputOpened] is set. *)
Theorem input_is_shown_exactly_when_opened
  (t : string -> string) (config : Config) (d : Document) (sel : option Range)
  (l : list Action) :
  ShownIffOpened (afterAll (mounted t config d sel) l).
Proof.
  apply afterAll_keeps.
  - apply ShownIffOpened_after.
  - apply mounted_ShownIffOpened.
Qed.

(** X6. From the rendered tool on, whatever the host and the user do, a fake
    background is enabled only while the input is opened: no close, commit
    or unlink leaves one behind. *)
Theorem no_fake_background_once_closed
  (t : string -> string) (config : Config) (d : Document) (sel : option Range)
  (l : list Action) :
  FakeBackgroundOnlyWhileOpened (afterAll (mounted t config d sel) l).
Proof.
  apply afterAll_keeps.
  - apply FakeBackgroundOnlyWhileOpened_after.
  - unfold FakeBackgroundOnlyWhileOpened. cbn. discriminate.
Qed.

Lemma goodCommand_after (w : World) (a : Action) :
  Forall goodCommand (trace w) -> Forall goodCommand (trace (after w a)).
Proof.
  destruct w as [d ws [sv fb] op bc rc lc tc lv tv tr].
  unfold after, handle. cbn [trace]. intros H.
  destruct a as [range | arg | | k | sel | l t]; crunch;
    rewrite ?Forall_app; repeat split; try assumption;
    repeat first [apply Forall_nil | apply Forall_cons];
    cbn [goodCommand]; try exact I;
    try (left; split; reflexivity).
  all: right; split; [reflexivity | ]; eexists; split; [reflexivity | ].
  all: rewrite orEmpty_id in *.
  all: apply committed_link_is_good; assumption.
Qed.

(** X7. From the rendered tool on, whatever the host and the user do, the
    only editing commands the tool issues are [unlink], with no value, and
    [createLink] with a link that passes validation, is not empty and is
    left as it is by [addProtocol]. *)
Theorem only_good_editing_commands
  (t : string -> string) (config : Config) (d : Document) (sel : option Range)
  (l : list Action) :
  Forall goodCommand (trace (afterAll (mounted t config d sel) l)).
Proof.
  apply (afterAll_keeps (fun w => Forall goodCommand (trace w))).
  - apply goodCommand_after.
  - constructor.
Qed.


(* ================================================================== *)
(** ** The other paths of the handlers *)
(* ================================================================== *)

(** X8. A click on the icon of the closed tool, with a range and no link
    around the selection, opens the input for a new link: the fake
    background is set, then the selection that is active is saved, then the
    link field is focused. The document, both fields and the button are as
    they were. *)
Theorem surround_opens_the_input (w : World) (range : Range) :
  inputOpened w = false ->
  enclosing "A" (document w) (windowSelection w) = None ->
  exists w',
    surround (Some range) w = Ok tt w'
    /\ trace w' = trace w ++ [SetFakeBackground; Save (windowSelection w); Focus]
    /\ inputOpened w' = true
    /\ isFakeBackgroundEnabled (selection w') = true
    /\ (forall r, windowSelection w = Some r ->
                  savedSelectionRange (selection w') = Some r)
    /\ document w' = document w
    /\ linkValue w' = linkValue w
    /\ titleValue w' = titleValue w
    /\ buttonClassList w' = buttonClassList w
    /\ shown (rootClassList w') /\ shown (linkClassList w')
    /\ shown (titleClassList w').
Proof.
  destruct w as [d ws [sv fb] op bc rc lc tc lv tv tr]. simpl.
  intros -> He. run. destruct ws as [r | ]; run; rewrite He; run.
  - eexists. split; [reflexivity | ]. cbn. tidy_trace.
    repeat split; auto; apply In_classList_add.
  - eexists. split; [reflexivity | ]. cbn. tidy_trace.
    repeat split; auto; try apply In_classList_add.
    intros r Hr. discriminate Hr.
Qed.

(** X9. A click on the icon with a range while the input is opened, the
    saved selection inside a link: the saved selection is restored, the fake
    background removed, the link replaced by its text, the session closed
    and the host toolbar closed. *)
Theorem surround_unlinks_while_opened
  (w : World) (range r : Range) (h t : option str) (s : str) :
  inputOpened w = true ->
  savedSelectionRange (selection w) = Some r ->
  nth_error (document w) (startNode r) = Some (Anchor h t s) ->
  exists w',
    surround (Some range) w = Ok tt w'
    /\ trace w' =
       trace w ++ [Restore (Some r);
                   RemoveFakeBackground;
                   ExpandToTag (startNode r);
                   ExecCommand "unlink" None;
                   ClearSaved;
                   ToolbarClose]
    /\ document w' = replaceAt (startNode r) (Text s) (document w)
    /\ textContent (document w') = textContent (document w)
    /\ isFakeBackgroundEnabled (selection w') = false
    /\ savedSelectionRange (selection w') = None
    /\ Closed w'.
Proof.
  destruct w as [d ws [sv fb] op bc rc lc tc lv tv tr]. simpl.
  intros -> -> Ha. run.
  rewrite (@enclosing_anchor d r h t s Ha). run. rewrite Ha. run.
  change (textOf (Anchor h t s)) with s.
  set (whole := {| startNode := startNode r; startOffset := 0;
                   endNode := startNode r; endOffset := length s |}).
  rewrite (@removeLink_enclosed d whole h t s Ha). run.
  change (startNode whole) with (startNode r).
  pose proof (@nth_error_replaceAt d (startNode r) (Text s) _ Ha) as Ha'.
  rewrite (@enclosing_text _ whole s Ha'). run.
  eexists. split; [reflexivity | ]. cbn.
  split; [tidy_trace; reflexivity | ].
  split; [reflexivity | ].
  split; [eapply textContent_replaceAt; [eassumption | reflexivity] | ].
  unfold Closed. cbn. repeat split.
Qed.

(** X10. A click on the icon with a range while the input is opened and no
    link is around the restored selection closes the input: the saved
    selection is restored and kept, the fake background removed, and the
    document is not touched. *)
Theorem surround_with_range_closes_the_opened_input (w : World) (range : Range) :
  inputOpened w = true ->
  enclosing "A" (document w) (restored w) = None ->
  exists w',
    surround (Some range) w = Ok tt w'
    /\ trace w' = trace w ++ [Restore (savedSelectionRange (selection w));
                              RemoveFakeBackground]
    /\ document w' = document w
    /\ windowSelection w' = restored w
    /\ savedSelectionRange (selection w') = savedSelectionRange (selection w)
    /\ isFakeBackgroundEnabled (selection w') = false
    /\ buttonClassList w' = buttonClassList w
    /\ Closed w'.
Proof.
  destruct w as [d ws [sv fb] op bc rc lc tc lv tv tr]. unfold restored. simpl.
  intros -> He. run. destruct sv as [r | ]; run; rewrite He; run;
    eexists; (split; [reflexivity | ]); cbn; tidy_trace; unfold Closed; cbn;
    repeat split.
Qed.

(** X11. Closing the opened input by a second click on the icon keeps the
    saved selection; closing it through [clear] discards it. Both leave the
    input not opened. *)
Theorem toggle_close_keeps_the_saved_selection (w : World) :
  inputOpened w = true ->
  savedSelectionRange (selection (after w (Surround None)))
  = savedSelectionRange (selection w)
  /\ savedSelectionRange (selection (after w Clear)) = None
  /\ inputOpened (after w (Surround None)) = false
  /\ inputOpened (after w Clear) = false.
Proof.
  destruct w as [d ws [sv fb] op bc rc lc tc lv tv tr]. unfold after, handle. simpl.
  intros ->. repeat split; crunch; reflexivity.
Qed.

Lemma In_classList_add_other (c x : string) (l : ClassList) :
  In x l -> In x (classList_add c l).
Proof.
  intros H. unfold classList_add. destruct (existsb (String.eqb c) l); [assumption | ].
  apply in_or_app. left. assumption.
Qed.

Lemma In_classList_remove (c x : string) (l : ClassList) :
  In x (classList_remove c l) -> In x l.
Proof. unfold classList_remove. intros H. apply filter_In in H as [H _]. exact H. Qed.

(** X12. [checkState] always returns, and returns [true] exactly when a
    link encloses the selection. The button carries the active and the
    unlink class afterwards exactly in that case. The document, the active
    selection and the fake background are never touched. With no link the
    input, its fields, the saved selection and the trace are as they were:
    [checkState] never closes the input. With a link the input is opened
    and the selection saved. *)
Theorem checkState_reports_the_enclosing_link (w : World) (arg : option Range) :
  exists b w',
    checkState arg w = Ok b w'
    /\ (b = true <-> enclosing "A" (document w) (windowSelection w) <> None)
    /\ (In CSS.buttonActive (buttonClassList w') <-> b = true)
    /\ (In CSS.buttonUnlink (buttonClassList w') <-> b = true)
    /\ document w' = document w
    /\ windowSelection w' = windowSelection w
    /\ isFakeBackgroundEnabled (selection w') = isFakeBackgroundEnabled (selection w)
    /\ (b = true ->
        inputOpened w' = true
        /\ savedSelectionRange (selection w') = windowSelection w
        /\ trace w' = trace w ++ [Save (windowSelection w)])
    /\ (b = false ->
        inputOpened w' = inputOpened w
        /\ linkValue w' = linkValue w
        /\ titleValue w' = titleValue w
        /\ selection w' = selection w
        /\ trace w' = trace w).
Proof.
  destruct w as [d ws [sv fb] op bc rc lc tc lv tv tr]. simpl. run.
  destruct (enclosing "A" d ws) as [a | ] eqn:He; run.
  - destruct (@enclosing_inv _ _ _ He) as (r & h & t & s & -> & _ & Hn).
    rewrite Hn. run.
    exists true. eexists. split; [reflexivity | ]. cbn.
    split; [split; [discriminate | reflexivity] | ].
    split.
    { split; [reflexivity | intros _; apply In_classList_add]. }
    split.
    { split; [reflexivity | intros _].
      apply In_classList_add_other, In_classList_add. }
    repeat split; discriminate.
  - exists false. eexists. split; [reflexivity | ]. cbn.
    split; [split; [discriminate | intros H; contradiction H; reflexivity] | ].
    split.
    { split; [intros H; exfalso; eapply not_In_classList_remove; exact H
             | discriminate]. }
    split.
    { split; [intros H; exfalso | discriminate].
      apply In_classList_remove in H.
      eapply not_In_classList_remove; exact H. }
    repeat split; discriminate.
Qed.

(** X13. Opening the input of a closed tool by a click with no range and
    closing it by a second one gives back the document, the saved selection
    and the fake-background flag, the opened flag, the class lists of the
    button, the root and both fields, and the empty fields, as they were;
    the trace has the focus call and nothing else. (The active selection,
    which the focus call takes, is not among them.) *)
Theorem toggle_twice_restores_the_tool (w : World) :
  Closed w ->
  ShownIffOpened w ->
  isFakeBackgroundEnabled (selection w) = false ->
  inputOpened (after w (Surround None)) = true
  /\ document (after (after w (Surround None)) (Surround None)) = document w
  /\ selection (after (after w (Surround None)) (Surround None)) = selection w
  /\ inputOpened (after (after w (Surround None)) (Surround None)) = inputOpened w
  /\ buttonClassList (after (after w (Surround None)) (Surround None))
     = buttonClassList w
  /\ rootClassList (after (after w (Surround None)) (Surround None))
     = rootClassList w
  /\ linkClassList (after (after w (Surround None)) (Surround None))
     = linkClassList w
  /\ titleClassList (after (after w (Surround None)) (Surround None))
     = titleClassList w
  /\ linkValue (after (after w (Surround None)) (Surround None)) = linkValue w
  /\ titleValue (after (after w (Surround None)) (Surround None)) = titleValue w
  /\ trace (after (after w (Surround None)) (Surround None)) = trace w ++ [Focus].
Proof.
  destruct w as [d ws [sv fb] op bc rc lc tc lv tv tr].
  unfold Closed, ShownIffOpened, shown, after, handle. simpl.
  intros (-> & -> & ->) (Hr & Hl & Ht) ->. split; [reflexivity | ].
  run. rewrite !classList_remove_add by assumption. repeat split.
Qed.

(** X14. [clear] on a tool that [clear] has just closed changes nothing but
    the trace, which gets one more [clearSaved] call. *)
Theorem clear_twice_is_clear_once (w : World) :
  after (after w Clear) Clear = record ClearSaved (after w Clear).
Proof.
  destruct w as [d ws [sv fb] op bc rc lc tc lv tv tr].
  unfold after, handle, record.
  assert (Hrm : forall c l, classList_remove c (classList_remove c l) = classList_remove c l).
  { intros c l. unfold classList_remove. induction l as [ | x l IH]; [reflexivity | ].
    simpl. destruct (String.eqb c x) eqn:E; simpl; [assumption | ].
    rewrite E. simpl. f_equal. assumption. }
  crunch; cbn; rewrite !Hrm; reflexivity.
Qed.

(** X15. Enter on a valid link text with no saved selection and no active
    selection: [createLink] has nothing to wrap, no anchor is found
    afterwards and the assignment of the title throws a [TypeError]. The
    fake background is already removed; the default is not prevented, the
    inline toolbar is not closed, and the input stays as it was with its
    text. *)
Theorem enterPressed_without_a_selection_throws (w : World) :
  trim (linkValue w) <> [] ->
  existsb isSpace (linkValue w) = false ->
  savedSelectionRange (selection w) = None ->
  windowSelection w = None ->
  exists w',
    enterPressed w = Throw TypeError w'
    /\ trace w' =
       trace w ++ [Restore None;
                   RemoveFakeBackground;
                   ExecCommand "createLink" (Some (prepareLink (linkValue w)))]
    /\ document w' = document w
    /\ inputOpened w' = inputOpened w
    /\ linkValue w' = linkValue w
    /\ titleValue w' = titleValue w
    /\ isFakeBackgroundEnabled (selection w') = false.
Proof.
  destruct w as [d ws [sv fb] op bc rc lc tc lv tv tr]. simpl.
  intros Hne Hsp -> ->. pose proof (validateURL_true _ Hsp) as Hv.
  run. rewrite !orEmpty_id. destruct (trim lv) eqn:Et; [congruence | ].
  cbn [truthy]. run. rewrite Hv. run.
  eexists. split; [reflexivity | ]. cbn. tidy_trace. repeat split.
Qed.


(* ================================================================== *)
(** ** Whole sessions *)
(* ================================================================== *)

(** [insertLink] on a selection of the document that is in no anchor. *)
Lemma insertLink_fresh (link title : str) (d : Document) (r : Range)
  (su : SelectionUtils) (op : bool) (bc rc lc tc : ClassList) (lv tv : str)
  (tr : list Event) :
  inDocument d r = true ->
  enclosing "A" d (Some r) = None ->
  exists d' k,
    insertLink link title (mkWorld d (Some r) su op bc rc lc tc lv tv tr)
    = Ok tt (mkWorld d' (Some (mkRange k 0 k (length (selectedText d r))))
               su op bc rc lc tc lv tv
               (tr ++ [ExecCommand "createLink" (Some link)]))
    /\ nth_error d' k = Some (Anchor (Some link) (Some title) (selectedText d r))
    /\ textContent d' = textContent d.
Proof.
  intros Hin He. run. rewrite He.
  pose proof (@createLink_textContent d link r Hin) as Ht.
  destruct (@createLink_selects_anchor d link r Hin) as (k & Hsel & Hk).
  destruct (createLink link r d) as [d' r'] eqn:Ec. simpl in Hsel, Hk, Ht. subst r'.
  run.
  rewrite (@enclosing_anchor _ {| startNode := k; startOffset := 0;
                                  endNode := k;
                                  endOffset := length (selectedText d r) |}
             _ _ _ Hk).
  cbn [startNode]. rewrite Hk.
  exists (replaceAt k (Anchor (Some link) (Some title) (selectedText d r)) d'), k.
  split; [reflexivity | ].
  split; [eapply nth_error_replaceAt; eassumption | ].
  rewrite <- Ht. eapply textContent_replaceAt; [eassumption | reflexivity].
Qed.

(** X16. Adding a link, from the rendered tool: a click on the icon over a
    selection of the document that is in no link, a valid link text and a
    title typed in, Enter. The selected text is then inside an anchor with
    the normalised link and the title, the text of the document is
    unchanged, the selection is collapsed at the end of the anchor, and the
    tool is closed with no fake background and no saved selection. *)
Theorem adding_a_link_end_to_end
  (t : string -> string) (config : Config) (d : Document)
  (r range : Range) (link title : str) :
  inDocument d r = true ->
  enclosing "A" d (Some r) = None ->
  trim link <> [] ->
  existsb isSpace link = false ->
  exists w' k,
    afterAll (mounted t config d (Some r))
      [Surround (Some range); UserTypes link title; Keydown ENTER_KEY] = w'
    /\ nth_error (document w') k
       = Some (Anchor (Some (prepareLink link)) (Some title) (selectedText d r))
    /\ textContent (document w') = textContent d
    /\ windowSelection w'
       = Some (mkRange k (length (selectedText d r)) k (length (selectedText d r)))
    /\ isFakeBackgroundEnabled (selection w') = false
    /\ savedSelectionRange (selection w') = None
    /\ Closed w'.
Proof.
  intros Hin He Hne Hsp. pose proof (validateURL_true _ Hsp) as Hv.
  unfold mounted, afterAll, fold_left, after, handle.
  unfold surround. run_around_insert. rewrite He, N.eqb_refl.
  run_around_insert. rewrite !orEmpty_id.
  destruct (trim link) eqn:Et; [congruence | ]. cbn [truthy]. rewrite Hv.
  run_around_insert.
  match goal with
  | |- context [insertLink ?l ?ti (mkWorld _ _ ?su' ?op' ?bc' ?rc' ?lc' ?tc' ?lv' ?tv' ?tr')] =>
      destruct (@insertLink_fresh l ti d r su' op' bc' rc' lc' tc' lv' tv' tr' Hin He)
        as (d' & k & E & Hk & Ht)
  end.
  rewrite E. run_around_insert.
  eexists. exists k. split; [reflexivity | ]. cbn. unfold Closed. cbn.
  repeat split; assumption.
Qed.

(** Enter on a valid link text with the saved selection inside a link. *)
Lemma commit_on_a_link (d : Document) (ws : option Range) (r : Range) (fb op : bool)
  (bc rc lc tc : ClassList) (lv tv : str) (tr : list Event)
  (h t : option str) (s : str) :
  inDocument d r = true ->
  nth_error d (startNode r) = Some (Anchor h t s) ->
  trim lv <> [] ->
  existsb isSpace lv = false ->
  exists w',
    enterPressed (mkWorld d ws (mkSelectionUtils (Some r) fb) op bc rc lc tc lv tv tr)
    = Ok tt w'
    /\ document w'
       = replaceAt (startNode r) (Anchor (Some (prepareLink lv)) (Some tv) s) d
    /\ windowSelection w'
       = Some (mkRange (startNode r) (length s) (startNode r) (length s))
    /\ isFakeBackgroundEnabled (selection w') = false
    /\ savedSelectionRange (selection w') = None
    /\ Closed w'.
Proof.
  intros Hin Ha Hne Hsp. pose proof (validateURL_true _ Hsp) as Hv.
  run_around_insert. rewrite !orEmpty_id.
  destruct (trim lv) eqn:Et; [congruence | ]. cbn [truthy]. rewrite Hv.
  run_around_insert.
  match goal with
  | |- context [insertLink ?l ?ti (mkWorld _ _ ?su' ?op' ?bc' ?rc' ?lc' ?tc' ?lv' ?tv' ?tr')] =>
      destruct (@insertLink_ok l ti d r su' op' bc' rc' lc' tc' lv' tv' tr' Hin)
        as (d' & k & inner & events & E & Hk & _ & Hwhole)
  end.
  destruct (Hwhole (startNode r) h t s (@enclosing_anchor d r h t s Ha) Ha)
    as (_ & -> & -> & ->).
  rewrite E. run_around_insert.
  eexists. split; [reflexivity | ]. cbn. unfold Closed. cbn. repeat split.
Qed.

(** X17. Editing a link, from the rendered tool: [checkState] with the
    selection inside a link, a valid link text and a title typed in, Enter.
    The whole link, not the selected part, then carries the normalised link
    and the title; its text and the text of the document are unchanged and
    the tool is closed. *)
Theorem editing_a_link_end_to_end
  (t : string -> string) (config : Config) (d : Document)
  (r : Range) (arg : option Range) (link title : str)
  (h t0 : option str) (s : str) :
  inDocument d r = true ->
  nth_error d (startNode r) = Some (Anchor h t0 s) ->
  trim link <> [] ->
  existsb isSpace link = false ->
  exists w',
    afterAll (mounted t config d (Some r))
      [CheckState arg; UserTypes link title; Keydown ENTER_KEY] = w'
    /\ document w'
       = replaceAt (startNode r) (Anchor (Some (prepareLink link)) (Some title) s) d
    /\ textContent (document w') = textContent d
    /\ windowSelection w'
       = Some (mkRange (startNode r) (length s) (startNode r) (length s))
    /\ isFakeBackgroundEnabled (selection w') = false
    /\ Closed w'.
Proof.
  intros Hin Ha Hne Hsp.
  assert (E1 : exists ws fb op bc rc lc tc tr,
             after (after (mounted t config d (Some r)) (CheckState arg))
               (UserTypes link title)
             = mkWorld d ws (mkSelectionUtils (Some r) fb) op bc rc lc tc link title tr).
  { unfold mounted, after, handle. run.
    rewrite (@enclosing_anchor d r h t0 s Ha). run. repeat eexists. }
  destruct E1 as (ws & fb & op & bc & rc & lc & tc & tr & E1).
  cbn [afterAll fold_left]. rewrite E1.
  unfold after, handle, keydown. rewrite N.eqb_refl.
  destruct (@commit_on_a_link d ws r fb op bc rc lc tc link title tr
              h t0 s Hin Ha Hne Hsp)
    as (w' & E & Hd & Hsel & Hfb & _ & Hc).
  rewrite E. exists w'. split; [reflexivity | ].
  split; [assumption | ]. split.
  { rewrite Hd. eapply textContent_replaceAt; [eassumption | reflexivity]. }
  auto.
Qed.

Lemma no_space_no_newline (v : str) :
  existsb isSpace v = false -> existsb isNewline v = false.
Proof.
  induction v as [ | c v IH]; simpl; [reflexivity | ].
  intros H. apply orb_false_iff in H as [Hc Hv]. rewrite (IH Hv), orb_false_r.
  unfold isSpace in Hc. apply orb_false_iff in Hc as [_ Hc].
  unfold isLineTerminator in Hc.
  apply orb_false_iff in Hc as [Hc _]. apply orb_false_iff in Hc as [Hc _].
  exact Hc.
Qed.

(** X18. Opening the input on a link and pressing Enter without typing:
    when the [href] has no white space, is not empty and is left as it is
    by [addProtocol], it is written back unchanged. The title is written
    back as the title field held it: empty for an absent title or the
    literal [null], and otherwise the title without its line feeds and
    carriage returns. *)
Theorem reopening_a_link_unchanged
  (t : string -> string) (config : Config) (d : Document)
  (r : Range) (arg : option Range) (v : str) (t0 : option str) (s : str) :
  inDocument d r = true ->
  nth_error d (startNode r) = Some (Anchor (Some v) t0 s) ->
  existsb isSpace v = false ->
  v <> [] ->
  addProtocol v = v ->
  exists w',
    afterAll (mounted t config d (Some r)) [CheckState arg; Keydown ENTER_KEY] = w'
    /\ document w'
       = replaceAt (startNode r)
           (Anchor (Some v)
              (Some match t0 with
                    | None => []
                    | Some x => if JS.eqb x (js "null") then [] else stripNewlines x
                    end)
              s) d
    /\ textContent (document w') = textContent d
    /\ Closed w'.
Proof.
  intros Hin Ha Hsp Hne Hfix. pose proof (validateURL_true _ Hsp) as Hv.
  assert (Hnull : JS.eqb v (js "null") = false).
  { destruct (JS.eqb v (js "null")) eqn:E; [ | reflexivity].
    apply Shapes.eqb_spec in E. subst v. vm_compute in Hfix. discriminate Hfix. }
  assert (Htitle : prefill t0
                   = match t0 with
                     | None => []
                     | Some x => if JS.eqb x (js "null") then [] else stripNewlines x
                     end).
  { unfold prefill, strictNe. destruct t0 as [x | ]; [ | reflexivity].
    destruct (JS.eqb x (js "null")); reflexivity. }
  assert (E1 : exists ws fb op bc rc lc tc tr,
             after (mounted t config d (Some r)) (CheckState arg)
             = mkWorld d ws (mkSelectionUtils (Some r) fb) op bc rc lc tc
                 v (prefill t0) tr).
  { unfold mounted, after, handle. run.
    rewrite (@enclosing_anchor d r (Some v) t0 s Ha). run. rewrite Ha. run.
    unfold prefill. cbn [strictNe]. rewrite Hnull. cbn [negb toValue].
    rewrite (stripNewlines_clean v (no_space_no_newline v Hsp)).
    repeat eexists. }
  destruct E1 as (ws & fb & op & bc & rc & lc & tc & tr & E1).
  cbn [afterAll fold_left]. rewrite E1.
  unfold after, handle, keydown. rewrite N.eqb_refl.
  assert (Hne' : trim v <> []) by (rewrite (@trim_space_free v Hv); assumption).
  destruct (@commit_on_a_link d ws r fb op bc rc lc tc v (prefill t0) tr
              (Some v) t0 s Hin Ha Hne' Hsp)
    as (w' & E & Hd & _ & _ & _ & Hc).
  rewrite E. exists w'. split; [reflexivity | ].
  assert (Hp : prepareLink v = v).
  { unfold prepareLink. rewrite (@trim_space_free v Hv). assumption. }
  rewrite Hp, Htitle in Hd. split; [assumption | ]. split; [ | assumption].
  rewrite Hd. eapply textContent_replaceAt; [eassumption | reflexivity].
Qed.

(** X19. Removing a link, from the rendered tool: [checkState] with the
    selection inside a link, the link field emptied or left blank, Enter.
    The link is replaced by its text, the text of the document is
    unchanged, the selection is the saved one and the tool is closed. *)
Theorem removing_a_link_end_to_end
  (t : string -> string) (config : Config) (d : Document)
  (r : Range) (arg : option Range) (blank title : str)
  (h t0 : option str) (s : str) :
  nth_error d (startNode r) = Some (Anchor h t0 s) ->
  trim blank = [] ->
  exists w',
    afterAll (mounted t config d (Some r))
      [CheckState arg; UserTypes blank title; Keydown ENTER_KEY] = w'
    /\ document w' = replaceAt (startNode r) (Text s) d
    /\ textContent (document w') = textContent d
    /\ windowSelection w' = Some r
    /\ isFakeBackgroundEnabled (selection w') = false
    /\ Closed w'.
Proof.
  intros Ha Hb.
  unfold mounted, afterAll, fold_left, after, handle, keydown.
  rewrite N.eqb_refl. run.
  rewrite (@enclosing_anchor d r h t0 s Ha). run.
  rewrite !orEmpty_id, Hb. cbn [truthy]. run.
  rewrite (@removeLink_enclosed d r h t0 s Ha).
  eexists. split; [reflexivity | ]. cbn. unfold Closed. cbn.
  repeat split.
  eapply textContent_replaceAt; [eassumption | reflexivity].
Qed.

(* ================================================================== *)
(** ** The further theorems on the sample pages *)
(* ================================================================== *)

(** [vc.ru] passes validation, and so does its normal form. *)
Lemma prepareLink_keeps_links_valid_on_sample :
  validateURL (js "vc.ru") = true
  /\ prepareLink (js "vc.ru") = addProtocol (js "vc.ru")
  /\ validateURL (prepareLink (js "vc.ru")) = true.
Proof.
  split; [reflexivity | ].
  apply (@prepareLink_keeps_links_valid (js "vc.ru")). reflexivity.
Defined.

(** The first click on the rendered tool, a word of plain text selected. *)
Lemma surround_opens_the_input_on_sample :
  inputOpened mountedOnText = false
  /\ enclosing "A" (document mountedOnText) (windowSelection mountedOnText) = None
  /\ exists w',
       surround (Some (mkRange 0 0 0 3)) mountedOnText = Ok tt w'
       /\ trace w' = [SetFakeBackground; Save (Some (mkRange 0 0 0 3)); Focus]
       /\ inputOpened w' = true
       /\ savedSelectionRange (selection w') = Some (mkRange 0 0 0 3)
       /\ document w' = samplePage.
Proof.
  split; [reflexivity | ]. split; [reflexivity | ].
  destruct (@surround_opens_the_input mountedOnText (mkRange 0 0 0 3) eq_refl eq_refl)
    as (w' & E & Ht & Ho & _ & Hs & Hd & _).
  exists w'. split; [exact E | ]. split; [exact Ht | ]. split; [exact Ho | ].
  split; [apply Hs; reflexivity | exact Hd].
Defined.

(** The click on the icon while the input is opened on the link of the
    sample page. *)
Lemma surround_unlinks_while_opened_on_sample :
  inputOpened (openOnLink (js "") (js "")) = true
  /\ savedSelectionRange (selection (openOnLink (js "") (js ""))) = Some (mkRange 1 1 1 3)
  /\ exists w',
       surround (Some (mkRange 1 1 1 3)) (openOnLink (js "") (js "")) = Ok tt w'
       /\ document w' = [Text (js "see "); Text (js "text"); Text (js " here")]
       /\ Closed w'.
Proof.
  split; [reflexivity | ]. split; [reflexivity | ].
  destruct (@surround_unlinks_while_opened (openOnLink (js "") (js ""))
              (mkRange 1 1 1 3) (mkRange 1 1 1 3)
              (Some (js "http://x.com")) (Some (js "X")) (js "text")
              eq_refl eq_refl eq_refl)
    as (w' & E & _ & Hd & _ & _ & _ & Hc).
  exists w'. split; [exact E | ]. split; [rewrite Hd; reflexivity | exact Hc].
Defined.

(** The click on the icon while the input is opened on plain text. *)
Lemma surround_with_range_closes_the_opened_input_on_sample :
  inputOpened openElsewhere = true
  /\ enclosing "A" (document openElsewhere) (restored openElsewhere) = None
  /\ exists w',
       surround (Some (mkRange 2 1 2 5)) openElsewhere = Ok tt w'
       /\ trace w' = [Restore (Some (mkRange 0 0 0 3)); RemoveFakeBackground]
       /\ windowSelection w' = Some (mkRange 0 0 0 3)
       /\ savedSelectionRange (selection w') = Some (mkRange 0 0 0 3)
       /\ Closed w'.
Proof.
  split; [reflexivity | ]. split; [reflexivity | ].
  destruct (@surround_with_range_closes_the_opened_input openElsewhere
              (mkRange 2 1 2 5) eq_refl eq_refl)
    as (w' & E & Ht & _ & Hw & Hs & _ & _ & Hc).
  exists w'. auto.
Defined.

Lemma toggle_close_keeps_the_saved_selection_on_sample :
  inputOpened openElsewhere = true
  /\ savedSelectionRange (selection (after openElsewhere (Surround None)))
     = Some (mkRange 0 0 0 3)
  /\ savedSelectionRange (selection (after openElsewhere Clear)) = None.
Proof.
  split; [reflexivity | ].
  destruct (@toggle_close_keeps_the_saved_selection openElsewhere eq_refl)
    as (Hk & Hc & _).
  split; [rewrite Hk; reflexivity | exact Hc].
Defined.

Lemma toggle_twice_restores_the_tool_on_sample :
  Closed mountedOnText
  /\ ShownIffOpened mountedOnText
  /\ isFakeBackgroundEnabled (selection mountedOnText) = false
  /\ inputOpened (after mountedOnText (Surround None)) = true
  /\ rootClassList (after (after mountedOnText (Surround None)) (Surround None)) = []
  /\ trace (after (after mountedOnText (Surround None)) (Surround None)) = [Focus].
Proof.
  assert (Hc : Closed mountedOnText) by (repeat split).
  assert (Hs : ShownIffOpened mountedOnText).
  { unfold ShownIffOpened, shown. cbn.
    repeat split; intros H; cbn in H; intuition discriminate. }
  split; [exact Hc | ]. split; [exact Hs | ]. split; [reflexivity | ].
  destruct (@toggle_twice_restores_the_tool mountedOnText Hc Hs eq_refl)
    as (Ho & _ & _ & _ & _ & Hr & _ & _ & _ & _ & Ht).
  split; [exact Ho | ]. split; [exact Hr | exact Ht].
Defined.

Lemma enterPressed_without_a_selection_throws_on_sample :
  trim (linkValue openWithoutSelection) <> []
  /\ existsb isSpace (linkValue openWithoutSelection) = false
  /\ savedSelectionRange (selection openWithoutSelection) = None
  /\ windowSelection openWithoutSelection = None
  /\ exists w',
       enterPressed openWithoutSelection = Throw TypeError w'
       /\ trace w' = [Restore None; RemoveFakeBackground;
                      ExecCommand "createLink" (Some (js "http://vc.ru"))]
       /\ document w' = samplePage
       /\ inputOpened w' = true.
Proof.
  assert (Hne : trim (linkValue openWithoutSelection) <> [])
    by (vm_compute; discriminate).
  split; [exact Hne | ]. repeat (split; [reflexivity | ]).
  destruct (@enterPressed_without_a_selection_throws openWithoutSelection
              Hne eq_refl eq_refl eq_refl)
    as (w' & E & Ht & Hd & Ho & _).
  exists w'. auto.
Defined.

(** Linking the first word of the sample page to [vc.ru]. *)
Lemma adding_a_link_end_to_end_on_sample :
  inDocument samplePage (mkRange 0 0 0 3) = true
  /\ enclosing "A" samplePage (Some (mkRange 0 0 0 3)) = None
  /\ trim (js "vc.ru") <> []
  /\ existsb isSpace (js "vc.ru") = false
  /\ exists w' k,
       afterAll mountedOnText
         [Surround (Some (mkRange 0 0 0 3)); UserTypes (js "vc.ru") (js "VC");
          Keydown ENTER_KEY] = w'
       /\ nth_error (document w') k
          = Some (Anchor (Some (js "http://vc.ru")) (Some (js "VC")) (js "see"))
       /\ textContent (document w') = js "see text here"
       /\ Closed w'.
Proof.
  assert (Hne : trim (js "vc.ru") <> []) by (vm_compute; discriminate).
  split; [reflexivity | ]. split; [reflexivity | ]. split; [exact Hne | ].
  split; [reflexivity | ].
  destruct (@adding_a_link_end_to_end (fun key => key) (mkConfig None) samplePage
              (mkRange 0 0 0 3) (mkRange 0 0 0 3) (js "vc.ru") (js "VC")
              eq_refl eq_refl Hne eq_refl)
    as (w' & k & E & Hk & Ht & _ & _ & _ & Hc).
  exists w', k. split; [exact E | ]. split; [exact Hk | ].
  split; [rewrite Ht; reflexivity | exact Hc].
Defined.

(** Pointing the link of the sample page to [vc.ru]. *)
Lemma editing_a_link_end_to_end_on_sample :
  inDocument samplePage (mkRange 1 1 1 3) = true
  /\ trim (js "vc.ru") <> []
  /\ existsb isSpace (js "vc.ru") = false
  /\ exists w',
       afterAll (mounted (fun key => key) (mkConfig None) samplePage
                   (Some (mkRange 1 1 1 3)))
         [CheckState None; UserTypes (js "vc.ru") (js ""); Keydown ENTER_KEY] = w'
       /\ document w' =
          [Text (js "see ");
           Anchor (Some (js "http://vc.ru")) (Some (js "")) (js "text");
           Text (js " here")]
       /\ Closed w'.
Proof.
  assert (Hne : trim (js "vc.ru") <> []) by (vm_compute; discriminate).
  split; [reflexivity | ]. split; [exact Hne | ]. split; [reflexivity | ].
  destruct (@editing_a_link_end_to_end (fun key => key) (mkConfig None) samplePage
              (mkRange 1 1 1 3) None (js "vc.ru") (js "")
              (Some (js "http://x.com")) (Some (js "X")) (js "text")
              eq_refl eq_refl Hne eq_refl)
    as (w' & E & Hd & _ & _ & _ & Hc).
  exists w'. split; [exact E | ]. split; [rewrite Hd; reflexivity | exact Hc].
Defined.

(** Enter on the link of the sample page, nothing typed. *)
Lemma reopening_a_link_unchanged_on_sample :
  inDocument samplePage (mkRange 1 1 1 3) = true
  /\ existsb isSpace (js "http://x.com") = false
  /\ addProtocol (js "http://x.com") = js "http://x.com"
  /\ exists w',
       afterAll (mounted (fun key => key) (mkConfig None) samplePage
                   (Some (mkRange 1 1 1 3)))
         [CheckState None; Keydown ENTER_KEY] = w'
       /\ document w' = samplePage
       /\ Closed w'.
Proof.
  repeat (split; [reflexivity | ]).
  assert (Hne : js "http://x.com" <> []) by discriminate.
  destruct (@reopening_a_link_unchanged (fun key => key) (mkConfig None) samplePage
              (mkRange 1 1 1 3) None (js "http://x.com") (Some (js "X")) (js "text")
              eq_refl eq_refl eq_refl Hne eq_refl)
    as (w' & E & Hd & _ & Hc).
  exists w'. split; [exact E | ]. split; [rewrite Hd; reflexivity | exact Hc].
Defined.

(** Emptying the link field on the link of the sample page. *)
Lemma removing_a_link_end_to_end_on_sample :
  nth_error samplePage 1
  = Some (Anchor (Some (js "http://x.com")) (Some (js "X")) (js "text"))
  /\ trim (js "") = []
  /\ exists w',
       afterAll (mounted (fun key => key) (mkConfig None) samplePage
                   (Some (mkRange 1 1 1 3)))
         [CheckState None; UserTypes (js "") (js ""); Keydown ENTER_KEY] = w'
       /\ document w' = [Text (js "see "); Text (js "text"); Text (js " here")]
       /\ Closed w'.
Proof.
  split; [reflexivity | ]. split; [reflexivity | ].
  destruct (@removing_a_link_end_to_end (fun key => key) (mkConfig None) samplePage
              (mkRange 1 1 1 3) None (js "") (js "")
              (Some (js "http://x.com")) (Some (js "X")) (js "text")
              eq_refl eq_refl)
    as (w' & E & Hd & _ & _ & _ & Hc).
  exists w'. split; [exact E | ]. split; [rewrite Hd; reflexivity | exact Hc].
Defined.

(* ================================================================== *)
(** ** Enter on a link with no address *)
(* ================================================================== *)

Lemma forallb_filter (p q : char -> bool) (v : str) :
  forallb p v = true -> forallb p (filter q v) = true.
Proof.
  induction v as [ | c v IH]; simpl; [reflexivity | ].
  intros H. apply andb_true_iff in H as [Hc Hv].
  destruct (q c); simpl; [rewrite Hc | ]; auto.
Qed.

(** A string is blank exactly when it is made of white space. *)
Lemma trim_nil_iff (v : str) : trim v = [] <-> forallb isSpace v = true.
Proof.
  split.
  - intros E. destruct (trim_spec v) as ((l & r & Ev & Hl & Hr) & _).
    rewrite E in Ev. rewrite Ev. simpl. rewrite forallb_app, Hl, Hr. reflexivity.
  - intros H. unfold trim, trimEnd, trimStart.
    rewrite (dropWhile_all _ _ H). reflexivity.
Qed.

Lemma prefill_of_no_address (h : option str) :
  h = None \/ h = Some (js "null") \/ (exists v, h = Some v /\ trim v = []) ->
  trim (prefill h) = [].
Proof.
  intros [-> | [-> | (v & -> & Hv)]]; [reflexivity | reflexivity | ].
  unfold prefill, strictNe. destruct (JS.eqb v (js "null")); [reflexivity | ].
  cbn [negb toValue]. apply trim_nil_iff. unfold stripNewlines.
  apply forallb_filter, trim_nil_iff. exact Hv.
Qed.

(** X20. Enter on a link right after [checkState], nothing typed, when the
    [href] of the link is absent, is the literal [null], or is empty or
    blank: the link field was filled with nothing, so the link is removed
    and its text left in place. *)
Theorem entering_no_address_removes_the_link
  (t : string -> string) (config : Config) (d : Document)
  (r : Range) (arg : option Range) (h t0 : option str) (s : str) :
  nth_error d (startNode r) = Some (Anchor h t0 s) ->
  h = None \/ h = Some (js "null") \/ (exists v, h = Some v /\ trim v = []) ->
  exists w',
    afterAll (mounted t config d (Some r)) [CheckState arg; Keydown ENTER_KEY] = w'
    /\ document w' = replaceAt (startNode r) (Text s) d
    /\ textContent (document w') = textContent d
    /\ Closed w'.
Proof.
  intros Ha Hh. apply prefill_of_no_address in Hh as Hb.
  unfold mounted, afterAll, fold_left, after, handle, keydown.
  rewrite N.eqb_refl. run.
  rewrite (@enclosing_anchor d r h t0 s Ha). run. rewrite Ha. run.
  change (toValue (if strictNe h (js "null") then h else Some (js "")))
    with (prefill h).
  rewrite !orEmpty_id, Hb. cbn [truthy]. run.
  rewrite (@removeLink_enclosed d r h t0 s Ha).
  eexists. split; [reflexivity | ]. cbn. unfold Closed. cbn.
  repeat split.
  eapply textContent_replaceAt; [eassumption | reflexivity].
Qed.

(** An anchor whose [href] is the literal [null]. *)
Lemma entering_no_address_removes_the_link_on_sample :
  nth_error [Anchor (Some (js "null")) None (js "text")] 0
  = Some (Anchor (Some (js "null")) None (js "text"))
  /\ exists w',
       afterAll (mounted (fun key => key) (mkConfig None)
                   [Anchor (Some (js "null")) None (js "text")]
                   (Some (mkRange 0 1 0 2)))
         [CheckState None; Keydown ENTER_KEY] = w'
       /\ document w' = [Text (js "text")]
       /\ Closed w'.
Proof.
  split; [reflexivity | ].
  destruct (@entering_no_address_removes_the_link (fun key => key) (mkConfig None)
              [Anchor (Some (js "null")) None (js "text")]
              (mkRange 0 1 0 2) None (Some (js "null")) None (js "text")
              eq_refl (or_intror (or_introl eq_refl)))
    as (w' & E & Hd & _ & Hc).
  exists w'. split; [exact E | ]. split; [rewrite Hd; reflexivity | exact Hc].
Defined.
